(** * Blog back end: posts, topics and slug allocation

    A shallow embedding of [app/post/routers/posts.py] (the handlers for
    topics and posts) over an explicit model of the document store, with
    the properties of the handlers proved about that embedding.

    Conventions.
    - An [ObjectId] is a natural number; the store hands them out from a
      counter.
    - A [datetime] is an integer number of time units; [now] is an input
      of the handlers that call [datetime.utcnow()].
    - A Python [str] is a [string]; [Optional[str]] is [option string].
    - A handler is a function from its arguments and the store before
      the request to a [Response] and the store after the request. *)

From Stdlib Require Import List String Ascii ZArith Bool Arith Lia.
From Stdlib Require Import DecimalString DecimalNat Permutation.
Import ListNotations.
Open Scope string_scope.

Set Implicit Arguments.

(** ** Values *)

Definition ObjectId := nat.
Definition datetime := Z.

(** Python truthiness of an [Optional[str]]: [None] and the empty string
    are falsy. *)
Definition truthy (o : option string) : bool :=
  match o with
  | Some s => negb (s =? "")
  | None => false
  end.

(** [s[:n]] on a Python string. *)
Definition prefix (n : nat) (s : string) : string := substring 0 n s.

(** ** Errors and responses *)

Inductive ExType : Type :=
| VALIDATION_ERROR
| OBJECT_NOT_FOUND
| PERMISSION_ERROR
| UNAUTHENTICATED.

Record CustomException : Type := mkException {
  status_code : nat;
  code : ExType;
  detail : string;
  field : option string
}.

Definition HTTP_200_OK : nat := 200.
Definition HTTP_201_CREATED : nat := 201.
Definition HTTP_400_BAD_REQUEST : nat := 400.
Definition HTTP_403_FORBIDDEN : nat := 403.
Definition HTTP_404_NOT_FOUND : nat := 404.

(** What a handler produces: the decorator's status with the returned
    body, a raised [CustomException], or an exception of the store
    client that nothing catches. *)
Inductive Response (A : Type) : Type :=
| Respond (status : nat) (body : A)
| Raise (e : CustomException)
| Uncaught.

Arguments Raise {A} e.
Arguments Uncaught {A}.

(** ** Documents *)

Record User : Type := mkUser {
  user_id : ObjectId;
  username : string
}.

Record Topic : Type := mkTopic {
  topic_id : ObjectId;
  topic_name : string;
  topic_slug : option string;
  topic_user_id : option ObjectId
}.

Record Post : Type := mkPost {
  post_id : ObjectId;
  author_id : ObjectId;
  slug : string;
  title : string;
  short_description : option string;
  description : option string;
  cover_image : option string;
  publish_at : option datetime;
  topic_ids : list ObjectId
}.

Record Store : Type := mkStore {
  users : list User;
  topics : list Topic;
  posts : list Post;
  next_id : ObjectId
}.

Definition set_slug (new_slug : string) (p : Post) : Post :=
  mkPost (post_id p) (author_id p) new_slug (title p) (short_description p)
         (description p) (cover_image p) (publish_at p) (topic_ids p).

Definition set_topic_slug (uid : ObjectId) (new_slug : string) (t : Topic)
  : Topic :=
  mkTopic (topic_id t) (topic_name t) (Some new_slug) (Some uid).

Definition with_posts (st : Store) (ps : list Post) : Store :=
  mkStore (users st) (topics st) ps (next_id st).

Definition with_topics (st : Store) (ts : list Topic) : Store :=
  mkStore (users st) ts (posts st) (next_id st).

Definition opt_string_eqb (a b : option string) : bool :=
  match a, b with
  | Some x, Some y => x =? y
  | None, None => true
  | _, _ => false
  end.

(** ** The document store

    Modelled from the spec: the models module and the store client are
    not among the sources.  Each collection is the list of its documents
    in insertion order; [slug] carries a uniqueness constraint in both
    collections, and a write that would give two documents the same slug
    fails (with an exception in the source, with [None] here) and
    changes nothing. *)

Module Posts.

Definition slug_taken (except : option ObjectId) (s : string)
           (ps : list Post) : bool :=
  existsb (fun p =>
             (slug p =? s)
             && match except with
                | Some i => negb (post_id p =? i)%nat
                | None => true
                end) ps.

(** [Post(...).create()]: a fresh [_id], refused when the slug is
    taken. *)
Definition create (mk : ObjectId -> Post) (st : Store)
  : option (Post * Store) :=
  let p := mk (next_id st) in
  if slug_taken None (slug p) (posts st) then None
  else Some (p, mkStore (users st) (topics st) (posts st ++ [p])
                        (S (next_id st))).

(** [post.update(raw={"$set": {"slug": new_slug}})]. *)
Definition update_slug (i : ObjectId) (new_slug : string) (st : Store)
  : option Store :=
  if slug_taken (Some i) new_slug (posts st) then None
  else Some (with_posts st
               (map (fun p => if (post_id p =? i)%nat
                              then set_slug new_slug p else p)
                    (posts st))).

(** [post.update()]: writes every field of the in-memory document
    over the stored one with the same [_id]. *)
Definition update (doc : Post) (st : Store) : option Store :=
  if slug_taken (Some (post_id doc)) (slug doc) (posts st) then None
  else Some (with_posts st
               (map (fun p => if (post_id p =? post_id doc)%nat
                              then doc else p)
                    (posts st))).

(** [post.delete()]. *)
Definition delete (i : ObjectId) (st : Store) : Store :=
  with_posts st
    (filter (fun p => negb (post_id p =? i)%nat) (posts st)).

(** [Post.find(filter=...)] without paging, and [Post.get]. *)
Definition find (matches : Post -> bool) (st : Store) : list Post :=
  filter matches (posts st).

Definition get (matches : Post -> bool) (st : Store) : option Post :=
  List.find matches (posts st).

Definition by_id (i : ObjectId) (st : Store) : option Post :=
  List.find (fun p => (post_id p =? i)%nat) (posts st).

End Posts.

Module Topics.

Definition slug_taken (except : ObjectId) (s : string)
           (ts : list Topic) : bool :=
  existsb (fun t =>
             opt_string_eqb (topic_slug t) (Some s)
             && negb (topic_id t =? except)%nat) ts.

(** [Topic.get_or_create({"name": name})]: the first topic of that
    name, or a new one that has a name and nothing else yet. *)
Definition get_or_create (name : string) (st : Store)
  : Topic * bool * Store :=
  match List.find (fun t => topic_name t =? name) (topics st) with
  | Some t => (t, false, st)
  | None =>
      let t := mkTopic (next_id st) name None None in
      (t, true,
       mkStore (users st) (topics st ++ [t]) (posts st) (S (next_id st)))
  end.

(** [topic.update({"$set": {"user_id": uid, "slug": new_slug}})]. *)
Definition update_slug (i uid : ObjectId) (new_slug : string)
           (st : Store) : option Store :=
  if slug_taken i new_slug (topics st) then None
  else Some (with_topics st
               (map (fun t => if (topic_id t =? i)%nat
                              then set_topic_slug uid new_slug t else t)
                    (topics st))).

(** [topic.delete()]. *)
Definition delete (i : ObjectId) (st : Store) : Store :=
  with_topics st
    (filter (fun t => negb (topic_id t =? i)%nat) (topics st)).

Definition find (matches : Topic -> bool) (st : Store) : list Topic :=
  filter matches (topics st).

Definition by_id (i : ObjectId) (st : Store) : option Topic :=
  List.find (fun t => (topic_id t =? i)%nat) (topics st).

End Topics.

Definition get_user (i : ObjectId) (st : Store) : option User :=
  List.find (fun u => (user_id u =? i)%nat) (users st).

(** Modelled from the spec: [get_object_or_404] is the generic lookup
    helper of [app.base.utils.query], which is not among the sources: the
    first document that matches, or a not-found error. *)
Definition get_object_or_404 (matches : Post -> bool) (st : Store)
  : Post + CustomException :=
  match Posts.get matches st with
  | Some p => inl p
  | None => inr (mkException HTTP_404_NOT_FOUND OBJECT_NOT_FOUND
                             "Object not found." None)
  end.

(** ** Random suffixes

    Modelled from the spec: [rand_slug_str] of [app.base.utils.string] is
    not among the sources: a random string of lower-case letters and
    digits that is as long as its argument says.  [choice N k] is what
    the random source draws for the character [k] of the call
    [rand_slug_str(N)]. *)

Module Utils.

Definition alphabet : string := "abcdefghijklmnopqrstuvwxyz0123456789".

Definition letter (k : nat) : ascii :=
  match String.get (k mod 36) alphabet with
  | Some c => c
  | None => "a"%char
  end.

Fixpoint letters_from (f : nat -> ascii) (start n : nat) : string :=
  match n with
  | 0 => ""
  | S n' => String (f start) (letters_from f (S start) n')
  end.

Definition rand_slug_str (choice : nat -> nat -> nat) (N : nat) : string :=
  letters_from (fun k => letter (choice N k)) 0 N.

End Utils.

(** ** The slug loop

    Both creation handlers run the same loop: [for i in range(1, 10)],
    a [try] around one write of the candidate slug, [break] on the first
    write that goes through, [pass] on any exception.  [persist] is the
    write; [rand_slug_str] gives the result of the source's
    [rand_slug_str(i)] in this request.  Apart from what the source
    returns, the loop reports the candidates it tried, in order. *)

Record Allocation : Type := mkAllocation {
  attempts : list string;
  outcome : option (string * Store)
}.

Definition candidate (rand_slug_str : nat -> string) (slug : string)
           (i : nat) : string :=
  if (1 <? i)%nat then slug ++ "-" ++ rand_slug_str i else slug.

Fixpoint slug_loop (persist : string -> Store -> option Store)
         (rand_slug_str : nat -> string) (slug : string)
         (range : list nat) (st : Store) : Allocation :=
  match range with
  | [] => mkAllocation [] None
  | i :: rest =>
      let new_slug := candidate rand_slug_str slug i in
      match persist new_slug st with
      | Some st' => mkAllocation [new_slug] (Some (new_slug, st'))
      | None =>
          let r := slug_loop persist rand_slug_str slug rest st in
          mkAllocation (new_slug :: attempts r) (outcome r)
      end
  end.

(** [range(1, 10)]. *)
Definition attempt_range : list nat := seq 1 9.

(** ** Text helpers of the handlers *)

Definition is_upper (c : ascii) : bool :=
  let n := nat_of_ascii c in ((65 <=? n) && (n <=? 90))%nat.

Definition is_alnum (c : ascii) : bool :=
  let n := nat_of_ascii c in
  (((48 <=? n) && (n <=? 57)) || ((97 <=? n) && (n <=? 122)))%nat.

Definition lower_char (c : ascii) : ascii :=
  if is_upper c then ascii_of_nat (nat_of_ascii c + 32) else c.

(** [str.lower()] on ASCII text; the handlers take [str.lower] as it
    comes, this is the one the examples use. *)
Fixpoint lower_ascii (s : string) : string :=
  match s with
  | EmptyString => EmptyString
  | String c s' => String (lower_char c) (lower_ascii s')
  end.

(** The slugify package on ASCII letters, digits, blanks and plain
    punctuation: lower case, every run of other characters becomes one
    ["-"], and no ["-"] is left at either end.  [started] says that a
    letter or digit was already written, [gap] that other characters
    were skipped since. *)
Fixpoint slugify_from (started gap : bool) (s : string) : string :=
  match s with
  | EmptyString => EmptyString
  | String c s' =>
      let c' := lower_char c in
      if is_alnum c' then
        if started && gap
        then String "-" (String c' (slugify_from true false s'))
        else String c' (slugify_from true false s')
      else slugify_from started true s'
  end.

Definition slugify_ascii (s : string) : string := slugify_from false false s.

Definition get_short_description (description : option string) : string :=
  match description with
  | Some d => if d =? "" then "" else prefix 200 d
  | None => ""
  end.

(** ** Request and response schemas

    [TagOut], [PostListOut] and [PostDetailsOut] are the schemas of
    [app/post/schemas/posts.py]. *)

Record TopicIn : Type := mkTopicIn {
  ti_name : string
}.

Record PostCreate : Type := mkPostCreate {
  pc_title : string;
  pc_short_description : option string;
  pc_description : option string;
  pc_cover_image : option string;
  pc_publish_at : option datetime;
  pc_topics : list string
}.

(** A field of a partial-update payload: left out of the request, or
    sent with a value. *)
Inductive Sent (A : Type) : Type :=
| Unset
| Provided (v : A).

Arguments Unset {A}.

(** Modelled from the spec: [PostUpdate] is declared in a part of the
    schema module that is not among the sources; it has the fields of
    [PostIn], each of them optional in the request.  The list of topic
    references, [tag_ids] in [PostIn], is the list the posts of this
    router store as [topic_ids]. *)
Record PostUpdate : Type := mkPostUpdate {
  pu_title : Sent string;
  pu_short_description : Sent (option string);
  pu_cover_image : Sent (option string);
  pu_publish_at : Sent (option datetime);
  pu_description : Sent (option string);
  pu_tag_ids : Sent (list ObjectId)
}.

(** Reading an attribute of the parsed payload: a field that was not
    sent reads as its default, [None]. *)
Definition read {A : Type} (f : Sent (option A)) : option A :=
  match f with
  | Unset => None
  | Provided v => v
  end.

Definition merge {A : Type} (f : Sent A) (old : A) : A :=
  match f with
  | Unset => old
  | Provided v => v
  end.

Record PostListOut : Type := mkPostListOut {
  lo_id : ObjectId;
  lo_author : option User;
  lo_title : string;
  lo_short_description : option string;
  lo_cover_image : option string;
  lo_publish_at : option datetime
}.

Record TagOut : Type := mkTagOut {
  to_id : ObjectId;
  to_name : string
}.

Record PostDetailsOut : Type := mkPostDetailsOut {
  do_id : ObjectId;
  do_author : option User;
  do_title : string;
  do_short_description : option string;
  do_cover_image : option string;
  do_publish_at : option datetime;
  do_description : option string;
  do_tags : list TagOut
}.

Record Listing : Type := mkListing {
  count : nat;
  results : list PostListOut
}.

(** Modelled from the spec: [update_partially] is the generic
    partial-update-merge helper of [app.base.utils], which is not among
    the sources: every field the payload provides is written on the
    document, every other field is left as it is. *)
Definition update_partially (post : Post) (post_data : PostUpdate) : Post :=
  mkPost (post_id post) (author_id post) (slug post)
         (merge (pu_title post_data) (title post))
         (merge (pu_short_description post_data) (short_description post))
         (merge (pu_description post_data) (description post))
         (merge (pu_cover_image post_data) (cover_image post))
         (merge (pu_publish_at post_data) (publish_at post))
         (merge (pu_tag_ids post_data) (topic_ids post)).

Definition set_short_description (sd : option string) (p : Post) : Post :=
  mkPost (post_id p) (author_id p) (slug p) (title p) sd
         (description p) (cover_image p) (publish_at p) (topic_ids p).

(** ** Query filters *)

(** [{"publish_at": {"$ne": None, "$lt": now}}]. *)
Definition published (now : datetime) (p : Post) : bool :=
  match publish_at p with
  | Some t => (t <? now)%Z
  | None => false
  end.

Definition mem_id (i : ObjectId) (l : list ObjectId) : bool :=
  existsb (fun j => (j =? i)%nat) l.

Definition mem_string (s : string) (l : list string) : bool :=
  existsb (fun x => x =? s) l.

(** The filter [get_posts] builds: the publish-time condition, and one
    more condition for each of [author_id], [topics] and [q] that is
    truthy. *)
Definition list_filter (now : datetime) (q : option string)
           (topics : list ObjectId) (author : option ObjectId)
           (p : Post) : bool :=
  published now p
  && match author with
     | Some a => (author_id p =? a)%nat
     | None => true
     end
  && match topics with
     | [] => true
     | _ :: _ => existsb (fun i => mem_id i topics) (topic_ids p)
     end
  && (if truthy q
      then match q with Some t => title p =? t | None => true end
      else true).

(** [find(..., limit=limit, skip=offset)]: a limit of 0 is no limit. *)
Definition paginate {A : Type} (offset limit : nat) (l : list A) : list A :=
  let rest := skipn offset l in
  if (limit =? 0)%nat then rest else firstn limit rest.

Definition to_list_out (st : Store) (p : Post) : PostListOut :=
  mkPostListOut (post_id p) (get_user (author_id p) st) (title p)
                (short_description p) (cover_image p) (publish_at p).

(** ** The handlers *)

Section Handlers.

(** [slugify] of the slugify package, [str.lower] and [get_offset] of
    [app.base.utils] are used as they come. *)
Variable slugify : string -> string.
Variable lower : string -> string.
Variable get_offset : nat -> nat -> nat.

Definition name_error : CustomException :=
  mkException HTTP_400_BAD_REQUEST VALIDATION_ERROR "Name error"
              (Some "name").

Definition title_error : CustomException :=
  mkException HTTP_400_BAD_REQUEST VALIDATION_ERROR "Title error"
              (Some "title").

Definition not_found_error : CustomException :=
  mkException HTTP_400_BAD_REQUEST OBJECT_NOT_FOUND "Object not found."
              None.

Definition permission_error (what : string) : CustomException :=
  mkException HTTP_403_FORBIDDEN PERMISSION_ERROR what None.

(** [POST /topics]. *)
Definition create_topics (rand_slug_str : nat -> string)
           (topic_data : TopicIn) (user : User) (st : Store)
  : Response Topic * Store :=
  let name := lower (ti_name topic_data) in
  let '(topic, created, st1) := Topics.get_or_create name st in
  if created then
    let slug := slugify (topic_name topic) in
    let r := slug_loop
               (Topics.update_slug (topic_id topic) (user_id user))
               rand_slug_str slug attempt_range st1 in
    match outcome r with
    | Some (new_slug, st2) =>
        (Respond HTTP_201_CREATED
                 (mkTopic (topic_id topic) (topic_name topic)
                          (Some new_slug) (topic_user_id topic)),
         st2)
    | None => (Raise name_error, Topics.delete (topic_id topic) st1)
    end
  else (Respond HTTP_201_CREATED topic, st).

(** The short description [create_posts] stores. *)
Definition create_short_description (post_data : PostCreate)
  : option string :=
  if negb (truthy (pc_short_description post_data))
  then Some (get_short_description (pc_description post_data))
  else pc_short_description post_data.

(** The topics whose slug is among those of the request, by [_id]. *)
Definition resolve_topics (slugs : list string) (st : Store)
  : list ObjectId :=
  map topic_id
      (Topics.find (fun t => match topic_slug t with
                             | Some s => mem_string s slugs
                             | None => false
                             end) st).

(** The [Post(...)] that [create_posts] builds; the store gives it its
    [_id]. *)
Definition draft_post (placeholder : string) (post_data : PostCreate)
           (user : User) (st : Store) (i : ObjectId) : Post :=
  mkPost i (user_id user) placeholder (pc_title post_data)
         (create_short_description post_data) (pc_description post_data)
         (pc_cover_image post_data) (pc_publish_at post_data)
         (resolve_topics (pc_topics post_data) st).

(** [POST /posts].  [placeholder] is the [str(ObjectId())] of this
    request. *)
Definition create_posts (rand_slug_str : nat -> string)
           (placeholder : string) (post_data : PostCreate) (user : User)
           (st : Store) : Response Post * Store :=
  match Posts.create (draft_post placeholder post_data user st) st with
  | None => (Uncaught, st)
  | Some (post, st1) =>
      let slug := slugify (title post) in
      let r := slug_loop (Posts.update_slug (post_id post))
                         rand_slug_str slug attempt_range st1 in
      match outcome r with
      | Some (new_slug, st2) =>
          (Respond HTTP_201_CREATED (set_slug new_slug post), st2)
      | None => (Raise title_error, Posts.delete (post_id post) st1)
      end
  end.

(** [GET /posts]. *)
Definition get_posts (now : datetime) (page limit : nat)
           (q : option string) (topics : list ObjectId)
           (author : option ObjectId) (st : Store) : Response Listing :=
  let offset := get_offset page limit in
  let filter := list_filter now q topics author in
  let post_qs := paginate offset limit (Posts.find filter st) in
  let results := map (to_list_out st) post_qs in
  let post_count := List.length (Posts.find filter st) in
  Respond HTTP_200_OK (mkListing post_count results).

(** [GET /posts/{slug}].  The handler puts the topics of the post on
    the post as [topics]; [PostDetailsOut] has no field of that name, so
    the body it builds from the post does not carry them, and its
    [tags], which the posts of this router do not have, keep their
    default. *)
Definition get_post_details (now : datetime) (slug0 : string) (st : Store)
  : Response PostDetailsOut :=
  let filter := fun p => (slug p =? slug0) && published now p in
  match Posts.get filter st with
  | None => Raise not_found_error
  | Some post =>
      match get_user (author_id post) st with
      | None => Raise not_found_error
      | Some author =>
          let topics :=
            Topics.find (fun t => mem_id (topic_id t) (topic_ids post)) st in
          Respond HTTP_200_OK
                  (mkPostDetailsOut (post_id post) (Some author)
                     (title post) (short_description post)
                     (cover_image post) (publish_at post)
                     (description post) [])
      end
  end.

(** The document [update_posts] writes back. *)
Definition updated_post (post : Post) (post_data : PostUpdate) : Post :=
  let post1 := update_partially post post_data in
  let post2 :=
    set_short_description (read (pu_short_description post_data)) post1 in
  if negb (truthy (short_description post2))
     && truthy (read (pu_description post_data))
  then set_short_description
         (Some (get_short_description (read (pu_description post_data))))
         post2
  else post2.

(** [PATCH /posts/{slug}]. *)
Definition update_posts (slug0 : string) (post_data : PostUpdate)
           (user : User) (st : Store) : Response string * Store :=
  match get_object_or_404 (fun p => slug p =? slug0) st with
  | inr e => (Raise e, st)
  | inl post =>
      if negb (author_id post =? user_id user)%nat then
        (Raise (permission_error
                  "You don't have access to update this post."), st)
      else
        match Posts.update (updated_post post post_data) st with
        | Some st' => (Respond HTTP_200_OK "Post Updated", st')
        | None => (Uncaught, st)
        end
  end.

(** [DELETE /posts/{slug}]. *)
Definition delete_post (slug0 : string) (user : User) (st : Store)
  : Response string * Store :=
  match get_object_or_404 (fun p => slug p =? slug0) st with
  | inr e => (Raise e, st)
  | inl post =>
      if negb (author_id post =? user_id user)%nat then
        (Raise (permission_error
                  "You don't have access to delete this post."), st)
      else (Respond HTTP_200_OK "Deleted", st)
  end.

End Handlers.

(** ** Requests and reachable stores

    The requests of this router that write to the store.  Users are
    registered and edited by another router; [ChangeUsers] stands for
    its writes, which touch the [users] collection only. *)

Inductive Request : Type :=
| CreateTopic (rand_slug_str : nat -> string) (topic_data : TopicIn)
              (user : User)
| CreatePost (rand_slug_str : nat -> string) (placeholder : string)
             (post_data : PostCreate) (user : User)
| UpdatePost (slug0 : string) (post_data : PostUpdate) (user : User)
| DeletePost (slug0 : string) (user : User)
| ChangeUsers (us : list User).

Definition handle (slugify lower : string -> string) (r : Request)
           (st : Store) : Store :=
  match r with
  | CreateTopic rnd topic_data user =>
      snd (create_topics slugify lower rnd topic_data user st)
  | CreatePost rnd placeholder post_data user =>
      snd (create_posts slugify rnd placeholder post_data user st)
  | UpdatePost slug0 post_data user =>
      snd (update_posts slug0 post_data user st)
  | DeletePost slug0 user => snd (delete_post slug0 user st)
  | ChangeUsers us => mkStore us (topics st) (posts st) (next_id st)
  end.

Definition run (slugify lower : string -> string) (rs : list Request)
           (st : Store) : Store :=
  fold_left (fun s r => handle slugify lower r s) rs st.

Definition initial (n : ObjectId) : Store := mkStore [] [] [] n.

(** A store is reachable when some sequence of requests leads to it from
    an empty one. *)
Definition reachable (slugify lower : string -> string) (st : Store)
  : Prop :=
  exists n rs, st = run slugify lower rs (initial n).

(** The store keeps its documents apart: identifiers below the counter
    and pairwise distinct, slugs pairwise distinct, and no topic left
    without a slug. *)
Record well_formed (st : Store) : Prop := mkWellFormed {
  wf_post_ids : Forall (fun p => post_id p < next_id st) (posts st);
  wf_post_ids_distinct : NoDup (map post_id (posts st));
  wf_post_slugs_distinct : NoDup (map slug (posts st));
  wf_topic_ids : Forall (fun t => topic_id t < next_id st) (topics st);
  wf_topic_ids_distinct : NoDup (map topic_id (topics st));
  wf_topic_slugs_distinct : NoDup (map topic_slug (topics st));
  wf_topic_slugs_set : Forall (fun t => topic_slug t <> None) (topics st)
}.



(** ** Properties as predicates *)

(** Attempt [n] is the first one whose write goes through. *)
Definition first_success (persist : string -> Store -> option Store)
           (rand_slug_str : nat -> string) (slug0 : string) (st : Store)
           (n : nat) : Prop :=
  1 <= n <= 9
  /\ (forall i, 1 <= i < n ->
                persist (candidate rand_slug_str slug0 i) st = None)
  /\ persist (candidate rand_slug_str slug0 n) st <> None.

(** Every one of the nine writes fails. *)
Definition all_fail (persist : string -> Store -> option Store)
           (rand_slug_str : nat -> string) (slug0 : string) (st : Store)
  : Prop :=
  forall i, 1 <= i <= 9 ->
            persist (candidate rand_slug_str slug0 i) st = None.

(** The posts a reader may see at [now] under the given query. *)
Definition visible (now : datetime) (q : option string)
           (topics : list ObjectId) (author : option ObjectId)
           (p : Post) : Prop :=
  (exists t, publish_at p = Some t /\ (t < now)%Z)
  /\ (forall a, author = Some a -> author_id p = a)
  /\ (topics <> [] -> exists i, In i (topic_ids p) /\ In i topics)
  /\ (forall t, q = Some t -> t <> "" -> title p = t).

(** The listing holds exactly the visible posts. *)
Definition lists_exactly_visible (get_offset : nat -> nat -> nat)
           (now : datetime) (page limit : nat) (q : option string)
           (topics : list ObjectId) (author : option ObjectId)
           (st : Store) : Prop :=
  forall p, In p (posts st) ->
    (visible now q topics author p <->
     exists l, get_posts get_offset now page limit q topics author st
               = Respond HTTP_200_OK l
               /\ In (to_list_out st p) (results l)).

(** What the stored short description of a new post is said to be: the
    one of the request when there is one, else the first 200 characters
    of the description, else the empty string. *)
Definition short_description_as_given (post_data : PostCreate)
  : option string :=
  match pc_short_description post_data with
  | Some s => Some s
  | None =>
      match pc_description post_data with
      | Some d => Some (prefix 200 d)
      | None => Some ""
      end
  end.

(** ** Sample data *)

Definition alice : User := mkUser 1 "username_1".
Definition bob : User := mkUser 2 "username_2".

(** [c * n] on a one-character string. *)
Fixpoint copies (c : ascii) (n : nat) : string :=
  match n with
  | 0 => ""
  | S n' => String c (copies c n')
  end.

Definition letters (n : nat) : string := copies "k" n.

(** One possible run of [rand_slug_str]. *)
Definition sample_rand (i : nat) : string := letters i.

(** Modelled from the spec: [get_offset] of [app.base.utils] is not
    among the sources; pages are counted from 1. *)
Definition get_offset_pages (page limit : nat) : nat := (page - 1) * limit.

Definition empty_store : Store := mkStore [alice; bob] [] [] 10.

Definition hello_post (i : ObjectId) (s : string) (at_ : option datetime)
  : Post :=
  mkPost i 1 s "Hello" (Some "short") (Some "long text") None at_ [].

(** Two published posts and one that is not. *)
Definition small_store : Store :=
  mkStore [alice; bob] []
          [hello_post 3 "hello" (Some 5%Z);
           hello_post 4 "hello-kk" (Some 6%Z);
           hello_post 5 "draft" None]
          10.

(** Posts that hold every slug the loop can try for the title "Hello"
    under [sample_rand]. *)
Definition crowded_posts : Store :=
  mkStore [alice; bob] []
          (map (fun i => hello_post i (candidate sample_rand "hello" i)
                                    (Some 5%Z))
               (seq 1 9))
          10.

Definition crowded_topics : Store :=
  mkStore [alice; bob]
          (map (fun i => mkTopic i (letters i)
                                 (Some (candidate sample_rand "news" i))
                                 (Some 1))
               (seq 1 9))
          [] 10.

Definition hello_data : PostCreate :=
  mkPostCreate "Hello" None (Some "long text") None (Some 5%Z) [].

Definition retitle : PostUpdate :=
  mkPostUpdate (Provided "Goodbye") Unset Unset Unset Unset Unset.

(** A post whose author is not among the users. *)
Definition orphan_store : Store :=
  mkStore [alice; bob] []
          [mkPost 3 7 "ghost" "Ghost" None None None (Some 5%Z) []]
          10.

(** A request that sends an empty short description. *)
Definition empty_summary_data : PostCreate :=
  mkPostCreate "Hello" (Some "") (Some "abc") None None [].

(** A request without a short description and with a long text. *)
Definition long_text_data : PostCreate :=
  mkPostCreate "Hello" None (Some (copies "A" 500)) None None [].

(** Every post the handler creates is stored with the short description
    of [short_description_as_given]. *)
Definition stores_short_description_as_given
           (slugify : string -> string) (rnd : nat -> string)
           (placeholder : string) (post_data : PostCreate) (user : User)
           (st : Store) : Prop :=
  forall status post st',
    create_posts slugify rnd placeholder post_data user st
    = (Respond status post, st') ->
    short_description post = short_description_as_given post_data.

(** The short description of the request when it is there and not
    empty; otherwise the first 200 characters of the description; the
    empty string when there is no description either. *)
Definition short_description_when_nonempty (post_data : PostCreate)
  : option string :=
  let from_description :=
    match pc_description post_data with
    | Some d => Some (prefix 200 d)
    | None => Some ""
    end in
  match pc_short_description post_data with
  | Some s => if s =? "" then from_description else Some s
  | None => from_description
  end.



(** Alice registers and writes the post "Hello". *)
Definition hello_requests : list Request :=
  [ChangeUsers [alice; bob];
   CreatePost sample_rand "65f0c1" hello_data alice].


(** ** The topic listing *)

Record TopicListing : Type := mkTopicListing {
  topic_count : nat;
  topic_results : list Topic
}.

Section TopicsHandler.

(** [compile q] is [re.compile(q, re.IGNORECASE)]: [None] when the
    pattern is not a regular expression, else the names the store
    matches against it. *)
Variable compile : string -> option (string -> bool).
Variable get_offset : nat -> nat -> nat.

(** [GET /topics]. *)
Definition get_topics (page limit : nat) (q : option string) (st : Store)
  : Response TopicListing :=
  let offset := get_offset page limit in
  let filter :=
    if truthy q
    then match q with
         | Some pattern =>
             match compile pattern with
             | Some matches => Some (fun t => matches (topic_name t))
             | None => None
             end
         | None => Some (fun _ : Topic => true)
         end
    else Some (fun _ : Topic => true) in
  match filter with
  | None => Uncaught
  | Some f =>
      let topic_qs := paginate offset limit (Topics.find f st) in
      let topic_count := List.length (Topics.find f st) in
      Respond HTTP_200_OK (mkTopicListing topic_count topic_qs)
  end.

End TopicsHandler.

(** Nine posts titled "Hello": after them every slug the loop can try
    for that title under [sample_rand] is taken. *)
Definition crowded_requests : list Request :=
  ChangeUsers [alice; bob]
  :: repeat (CreatePost sample_rand "65f0c1" hello_data alice) 9.

(** A request for a post without a publication time. *)
Definition draft_data : PostCreate :=
  mkPostCreate "Notes" None (Some "not yet") None None [].

(** ** The seed data of the tests

    [app/tests/data.py] builds the documents it hands to [bulk_write].
    What Faker, the clock, the password hash and [random] give is taken
    as it comes: each generator is a function of the place of the call,
    a list of numbers made of the call site and the loop indices around
    it.  [shuffle key population] is the order in which [random.sample]
    draws from the population at that call. *)

Module Data.

(** [str(n)] of a natural number. *)
Definition str (n : nat) : string :=
NilEmpty.string_of_uint (Nat.to_uint n).

(** [range(n)] of an integer. *)
Definition range (n : Z) : list nat := seq 0 (Z.to_nat n).

Record UserDoc : Type := mkUserDoc {
  ud_username : string;
  ud_full_name : string;
  ud_password : string;
  ud_random_str : string;
  ud_joining_date : datetime
}.

Record PostDoc : Type := mkPostDoc {
  pd_title : string;
  pd_publish_at : option datetime;
  pd_short_description : option string;
  pd_description : option string;
  pd_cover_image : option string;
  pd_author_id : ObjectId;
  pd_tag_ids : list ObjectId
}.

Record DescriptionDoc : Type := mkDescriptionDoc {
  dd_post_id : ObjectId;
  dd_description : string
}.

Record ReplyDoc : Type := mkReplyDoc {
  rd_user_id : ObjectId;
  rd_description : string
}.

Record CommentDoc : Type := mkCommentDoc {
  cd_user_id : ObjectId;
  cd_post_id : ObjectId;
  cd_description : string;
  cd_replies : list ReplyDoc
}.

(** A loop whose body may raise: the results in order, or [None] at the
    first body that raises. *)
Fixpoint traverse {A B : Type} (f : A -> option B) (l : list A)
  : option (list B) :=
  match l with
  | [] => Some []
  | x :: rest =>
      match f x with
      | None => None
      | Some y =>
          match traverse f rest with
          | None => None
          | Some ys => Some (y :: ys)
          end
      end
  end.

Section Generators.

Variable fake_name fake_password fake_word fake_sentence fake_text
  : list nat -> string.
Variable get_password_hash : string -> string.
Variable new_random_str : list nat -> string.
Variable utcnow : list nat -> datetime.
Variable shuffle : list nat -> list ObjectId -> list ObjectId.
Variable randint : list nat -> nat -> nat -> nat.

(** The module-level [users]: user name, full name, password. *)
Definition users : list (string * string * string) :=
  [("username_1", fake_name [0; 0], "password-one");
   ("username_2", fake_name [0; 1], "password-two")].

(** The requests [create_users] hands to [User.bulk_write]. *)
Definition create_users (N : Z) : list UserDoc :=
  let write_users :=
    map (fun '(i, (name, full_name, password)) =>
           mkUserDoc name full_name (get_password_hash password)
                     (new_random_str [1; i]) (utcnow [1; i]))
        (combine (seq 0 (List.length users)) users) in
  write_users
  ++ map (fun i =>
            mkUserDoc (str (i + 11) ++ "_username")
                      (fake_name [2; i])
                      (get_password_hash (fake_password [2; i]))
                      (new_random_str [2; i]) (utcnow [2; i]))
         (range (Z.max (N - 2) 0)).

(** The names of the tags [create_tags] hands to [Tag.bulk_write]. *)
Definition create_tags (N : Z) : list string :=
  map (fun i => fake_word [3; i]) (range N).

(** The number of tags [populate_dummy_data] asks for. *)
Definition tag_total (total_post : Z) : Z :=
  Z.min (Z.max (total_post / 10) 10) 1000.

(** [random.sample(population, k)]: it raises when the population has
    fewer than [k] elements. *)
Definition sample (key : list nat) (population : list ObjectId) (k : nat)
  : option (list ObjectId) :=
  if (List.length population <? k)%nat then None
  else Some (firstn k (shuffle key population)).

(** [random.sample(user_ids, 1)[0]]. *)
Definition sample_one (key : list nat) (population : list ObjectId)
  : option ObjectId :=
  match sample key population 1 with
  | Some l => hd_error l
  | None => None
  end.

(** [get_post()], with the author and the tags. *)
Definition new_post (i : nat) (author : ObjectId) (tags : list ObjectId)
  : PostDoc :=
  mkPostDoc (fake_sentence [4; i]) (Some (utcnow [4; i])) None
            (Some (fake_text [4; i])) None author tags.

(** The requests [create_posts] hands to [Post.bulk_write]. *)
Definition write_posts (N : Z) (user_ids tag_ids : list ObjectId)
  : option (list PostDoc) :=
  traverse (fun i =>
              match sample_one [5; i] user_ids with
              | None => None
              | Some author =>
                  match sample [6; i] tag_ids (randint [6; i] 1 3) with
                  | None => None
                  | Some tags => Some (new_post i author tags)
                  end
              end)
           (range N).

(** The requests [create_posts] hands to [PostDescription.bulk_write];
    [post_ids] are the identifiers of all posts of the collection, in
    its order. *)
Definition write_descriptions (N : Z) (post_ids : list ObjectId)
  : option (list DescriptionDoc) :=
  traverse (fun i =>
              match nth_error post_ids i with
              | None => None
              | Some post_id =>
                  Some (mkDescriptionDoc post_id (fake_text [7; i]))
              end)
           (range N).

(** One comment of [create_comments], with its replies. *)
Definition new_comment (j c : nat) (user_ids : list ObjectId)
           (post_id : ObjectId) : option CommentDoc :=
  match traverse (fun r =>
                    match sample_one [8; j; c; r] user_ids with
                    | None => None
                    | Some u => Some (mkReplyDoc u (fake_text [8; j; c; r]))
                    end)
                 (seq 0 (randint [8; j; c] 1 20)) with
  | None => None
  | Some replies =>
      match sample_one [9; j; c] user_ids with
      | None => None
      | Some u =>
          Some (mkCommentDoc u post_id (fake_text [9; j; c]) replies)
      end
  end.

(** The number of posts [create_comments] comments on. *)
Definition total_post_comment (total_post : nat) : nat :=
  Nat.min total_post (total_post / 3).

(** The list [write_comments] that [create_comments] builds and hands
    to [Comment.bulk_write]. *)
Definition write_comments (user_ids post_ids : list ObjectId)
  : option (list CommentDoc) :=
  let total_post := List.length post_ids in
  match sample [10] post_ids (total_post_comment total_post) with
  | None => None
  | Some chosen =>
      option_map (@List.concat CommentDoc)
        (traverse (fun '(j, post_id) =>
                     traverse (fun c => new_comment j c user_ids post_id)
                              (seq 0 (randint [11; j] 1 100)))
                  (combine (seq 0 (List.length chosen)) chosen))
  end.

End Generators.

End Data.

(** Generators for examples: every text is "x", the sample keeps the
    order of the population and [random.randint] gives its lower
    bound. *)
Definition plain_text (key : list nat) : string := "x".
Definition plain_now (key : list nat) : datetime := 0%Z.
Definition in_order (key : list nat) (population : list ObjectId)
  : list ObjectId := population.
Definition lowest (key : list nat) (lo hi : nat) : nat := lo.



(** A request that sends a new description and nothing else. *)
Definition redescribe : PostUpdate :=
  mkPostUpdate Unset Unset Unset Unset (Provided (Some "new text")) Unset.



(** A post by Alice and a topic by Bob. *)
Definition later_requests : list Request :=
  [CreatePost sample_rand "65f0c1" hello_data alice;
   CreateTopic sample_rand (mkTopicIn "Sport") bob].

(** * Proofs *)

Unset Implicit Arguments.

(** Settles [all_fail] on a concrete store, attempt by attempt. *)
Ltac each_attempt_fails :=
  let i := fresh "i" in
  let Hi := fresh "Hi" in
  intros i Hi;
  do 10 (destruct i as [| i]; [try lia; vm_compute; reflexivity |]);
  lia.

(** ** The slug loop *)

Lemma candidate_first (rnd : nat -> string) (s : string) :
  candidate rnd s 1 = s.
Proof. reflexivity. Qed.

Lemma candidate_later (rnd : nat -> string) (s : string) (i : nat) :
  1 < i -> candidate rnd s i = s ++ "-" ++ rnd i.
Proof.
  intros Hi. unfold candidate.
  destruct (Nat.ltb_spec 1 i) as [_ | Hle]; [reflexivity | lia].
Qed.

(** The loop over [seq a n]: the candidates tried are those of the
    indices [a], [a + 1], ... up to the first write that succeeds. *)
Lemma slug_loop_seq (persist : string -> Store -> option Store)
      (rnd : nat -> string) (s : string) (st : Store) :
  forall n a,
    let r := slug_loop persist rnd s (seq a n) st in
    let tried := List.length (attempts r) in
    attempts r = map (candidate rnd s) (seq a tried)
    /\ tried <= n
    /\ (forall i, a <= i < a + tried - 1 ->
                  persist (candidate rnd s i) st = None)
    /\ match outcome r with
       | Some (new_slug, st') =>
           1 <= tried
           /\ new_slug = candidate rnd s (a + tried - 1)
           /\ persist new_slug st = Some st'
       | None =>
           tried = n
           /\ (forall i, a <= i < a + n ->
                         persist (candidate rnd s i) st = None)
       end.
Proof.
  induction n as [| n IH]; intros a; cbn zeta.
  - cbn. refine (conj eq_refl (conj (le_n 0) (conj _ (conj eq_refl _))));
      intros i Hi; lia.
  - cbn [seq slug_loop].
    destruct (persist (candidate rnd s a) st) as [st' |] eqn:Hp.
    + cbn [attempts outcome List.length seq map].
      replace (a + 1 - 1) with a by lia.
      refine (conj eq_refl (conj _ (conj _ (conj (le_n 1) (conj eq_refl Hp)))));
        [lia | intros i Hi; lia].
    + specialize (IH (S a)). cbn zeta in IH.
      destruct IH as (Hatt & Hlen & Hfail & Hout).
      cbn [attempts outcome List.length].
      set (r := slug_loop persist rnd s (seq (S a) n) st) in *.
      refine (conj _ (conj _ (conj _ _))).
      * cbn [seq map]. f_equal. exact Hatt.
      * lia.
      * intros i Hi.
        destruct (Nat.eq_dec i a) as [-> | Hne]; [exact Hp |].
        apply Hfail. lia.
      * destruct (outcome r) as [[new_slug st'] |].
        -- destruct Hout as (H1 & H2 & H3).
           refine (conj _ (conj _ H3)); [lia |].
           rewrite H2. f_equal. lia.
        -- destruct Hout as (H1 & H2). split; [lia |].
           intros i Hi.
           destruct (Nat.eq_dec i a) as [-> | Hne]; [exact Hp |].
           apply H2. lia.
Qed.

(** When every write fails the loop ends without a slug, after nine
    attempts. *)
Lemma slug_loop_all_fail (persist : string -> Store -> option Store)
      (rnd : nat -> string) (s : string) (st : Store) :
  all_fail persist rnd s st ->
  outcome (slug_loop persist rnd s attempt_range st) = None.
Proof.
  intros Hall.
  pose proof (slug_loop_seq persist rnd s st 9 1) as H. cbn zeta in H.
  fold attempt_range in H.
  destruct H as (_ & Hlen & _ & Hout).
  destruct (outcome (slug_loop persist rnd s attempt_range st))
    as [[new_slug st'] |]; [| reflexivity].
  destruct Hout as (H1 & H2 & H3).
  rewrite H2, Hall in H3 by lia. discriminate.
Qed.

(** When the loop ends with a slug, that slug is the candidate of the
    first attempt whose write went through, and that attempt was the
    last one made. *)
Lemma slug_loop_success (persist : string -> Store -> option Store)
      (rnd : nat -> string) (s : string) (st : Store)
      (new_slug : string) (st' : Store) :
  outcome (slug_loop persist rnd s attempt_range st) = Some (new_slug, st') ->
  exists n,
    first_success persist rnd s st n
    /\ attempts (slug_loop persist rnd s attempt_range st)
       = map (candidate rnd s) (seq 1 n)
    /\ new_slug = candidate rnd s n
    /\ persist new_slug st = Some st'.
Proof.
  intros Hout.
  pose proof (slug_loop_seq persist rnd s st 9 1) as H. cbn zeta in H.
  fold attempt_range in H. rewrite Hout in H.
  destruct H as (Hatt & Hlen & Hfail & Hpos & Hnew & Hp).
  set (n := List.length
              (attempts (slug_loop persist rnd s attempt_range st))) in *.
  replace (1 + n - 1) with n in * by lia.
  exists n. split; [| auto].
  unfold first_success. split; [lia |]. split.
  - intros i Hi. apply Hfail. lia.
  - rewrite <- Hnew, Hp. discriminate.
Qed.

(** A post of the store whose slug is rewritten is in the store after
    the write. *)
Lemma update_slug_stores (i : ObjectId) (new_slug : string)
      (st st' : Store) (p : Post) :
  Posts.update_slug i new_slug st = Some st' ->
  In p (posts st) -> post_id p = i ->
  In (set_slug new_slug p) (posts st').
Proof.
  unfold Posts.update_slug. intros Hup Hin Hid.
  destruct (Posts.slug_taken (Some i) new_slug (posts st)); [discriminate |].
  injection Hup as <-. cbn.
  apply in_map_iff. exists p. split; [| exact Hin].
  rewrite Hid, Nat.eqb_refl. reflexivity.
Qed.


(** What [create_posts] does once the draft is in the store. *)
Lemma create_posts_inserts (slugify : string -> string)
      (rnd : nat -> string) (placeholder : string) (post_data : PostCreate)
      (user : User) (st : Store) (post0 : Post) (st1 : Store) :
  Posts.create (draft_post placeholder post_data user st) st
  = Some (post0, st1) ->
  let r := slug_loop (Posts.update_slug (next_id st)) rnd
                     (slugify (pc_title post_data)) attempt_range st1 in
  post0 = draft_post placeholder post_data user st (next_id st)
  /\ st1 = mkStore (users st) (topics st) (posts st ++ [post0])
                   (S (next_id st))
  /\ create_posts slugify rnd placeholder post_data user st
     = match outcome r with
       | Some (new_slug, st2) =>
           (Respond HTTP_201_CREATED (set_slug new_slug post0), st2)
       | None => (Raise title_error, Posts.delete (next_id st) st1)
       end.
Proof.
  intros Hcreate. unfold create_posts. rewrite Hcreate.
  unfold Posts.create in Hcreate. cbn [draft_post slug] in Hcreate.
  destruct (Posts.slug_taken None placeholder (posts st)); [discriminate |].
  injection Hcreate as <- <-. cbn [draft_post title post_id]. cbn zeta.
  split; [reflexivity |]. split; reflexivity.
Qed.

(** [create_posts] answers with a post only when the draft went in. *)
Lemma create_posts_responds (slugify : string -> string)
      (rnd : nat -> string) (placeholder : string) (post_data : PostCreate)
      (user : User) (st : Store) (status : nat) (post : Post) (st' : Store) :
  create_posts slugify rnd placeholder post_data user st
  = (Respond status post, st') ->
  exists new_slug,
    let post0 := draft_post placeholder post_data user st (next_id st) in
    let st1 := mkStore (users st) (topics st) (posts st ++ [post0])
                       (S (next_id st)) in
    Posts.create (draft_post placeholder post_data user st) st
    = Some (post0, st1)
    /\ outcome (slug_loop (Posts.update_slug (next_id st)) rnd
                          (slugify (pc_title post_data)) attempt_range st1)
       = Some (new_slug, st')
    /\ post = set_slug new_slug post0.
Proof.
  intros Hrun.
  destruct (Posts.create (draft_post placeholder post_data user st) st)
    as [[post0 st1] |] eqn:Hcreate.
  - destruct (create_posts_inserts slugify rnd _ _ _ _ _ _ Hcreate)
      as (Hpost & Hst & Heq).
    rewrite Heq in Hrun.
    destruct (outcome _) as [[new_slug st2] |] eqn:Hr in Hrun;
      [| discriminate].
    injection Hrun as _ <- <-. exists new_slug. cbn zeta.
    rewrite <- Hpost, <- Hst. auto.
  - unfold create_posts in Hrun. rewrite Hcreate in Hrun. discriminate.
Qed.

(** The topic [create_topics] inserts when the name is new, and what it
    does with it. *)
Lemma create_topics_inserts (slugify lower : string -> string)
      (rnd : nat -> string) (topic_data : TopicIn) (user : User)
      (st : Store) :
  List.find (fun t => topic_name t =? lower (ti_name topic_data)) (topics st)
  = None ->
  let name := lower (ti_name topic_data) in
  let st1 := mkStore (users st)
                     (topics st ++ [mkTopic (next_id st) name None None])
                     (posts st) (S (next_id st)) in
  let r := slug_loop (Topics.update_slug (next_id st) (user_id user)) rnd
                     (slugify name) attempt_range st1 in
  create_topics slugify lower rnd topic_data user st
  = match outcome r with
    | Some (new_slug, st2) =>
        (Respond HTTP_201_CREATED
                 (mkTopic (next_id st) name (Some new_slug) None), st2)
    | None => (Raise name_error, Topics.delete (next_id st) st1)
    end.
Proof.
  intros Hfind. unfold create_topics, Topics.get_or_create.
  rewrite Hfind. cbn [topic_id topic_name topic_user_id]. cbn zeta.
  match goal with
  | |- context [outcome ?r] => destruct (outcome r) as [[new_slug st2] |]
  end; reflexivity.
Qed.

(** A topic of that name is returned as it is, and nothing is written. *)
Lemma create_topics_existing (slugify lower : string -> string)
      (rnd : nat -> string) (topic_data : TopicIn) (user : User)
      (st : Store) (t : Topic) :
  List.find (fun t => topic_name t =? lower (ti_name topic_data)) (topics st)
  = Some t ->
  create_topics slugify lower rnd topic_data user st
  = (Respond HTTP_201_CREATED t, st).
Proof.
  intros Hfind. unfold create_topics, Topics.get_or_create.
  rewrite Hfind. reflexivity.
Qed.

(** A created post: its slug is the candidate of the first attempt whose
    write went through, and the store holds it. *)
Lemma create_posts_first_success :
  forall (slugify : string -> string) (rnd : nat -> string)
         (placeholder : string) (post_data : PostCreate) (user : User)
         (st : Store) (status : nat) (post : Post) (st' : Store),
    create_posts slugify rnd placeholder post_data user st
    = (Respond status post, st') ->
    let s := slugify (pc_title post_data) in
    let persist := Posts.update_slug (post_id post) in
    let st1 := mkStore (users st) (topics st)
                       (posts st ++ [set_slug placeholder post])
                       (S (next_id st)) in
    exists n,
      first_success persist rnd s st1 n
      /\ attempts (slug_loop persist rnd s attempt_range st1)
         = map (candidate rnd s) (seq 1 n)
      /\ slug post = candidate rnd s n
      /\ persist (slug post) st1 = Some st'
      /\ In post (posts st').
Proof.
  intros slugify rnd placeholder post_data user st status post st' Hrun.
  destruct (create_posts_responds _ _ _ _ _ _ _ _ _ Hrun)
    as (new_slug & Hcreate & Hr & ->).
  set (post0 := draft_post placeholder post_data user st (next_id st)) in *.
  assert (Hid : post_id post0 = next_id st) by reflexivity.
  assert (Hslug : slug post0 = placeholder) by reflexivity.
  assert (Hback : set_slug placeholder (set_slug new_slug post0) = post0).
  { destruct post0; cbn in *. subst. reflexivity. }
  cbn zeta. rewrite Hback.
  change (post_id (set_slug new_slug post0)) with (post_id post0).
  change (slug (set_slug new_slug post0)) with new_slug.
  rewrite Hid.
  destruct (slug_loop_success _ _ _ _ _ _ Hr) as (n & Hfirst & Hatt & Hnew & Hp).
  exists n. subst new_slug.
  repeat (split; [assumption || reflexivity |]).
  change (In (set_slug (candidate rnd (slugify (pc_title post_data)) n)
                       post0) (posts st')).
  eapply update_slug_stores; [exact Hp | | exact Hid].
  cbn. apply in_or_app. right. left. reflexivity.
Qed.

(** ** C1: the attempts of the slug loop *)








(** ** C2: running out of attempts *)

Lemma posts_delete_spec (i : ObjectId) (st : Store) (p : Post) :
  In p (posts (Posts.delete i st)) <-> In p (posts st) /\ post_id p <> i.
Proof.
  unfold Posts.delete. cbn. rewrite filter_In.
  rewrite negb_true_iff, Nat.eqb_neq. reflexivity.
Qed.

Lemma posts_delete_absent (i : ObjectId) (st : Store) :
  Posts.by_id i (Posts.delete i st) = None.
Proof.
  unfold Posts.by_id.
  destruct (List.find _ _) as [p |] eqn:Hfind; [| reflexivity].
  apply find_some in Hfind. destruct Hfind as (Hin & Heq).
  apply posts_delete_spec in Hin. apply Nat.eqb_eq in Heq. tauto.
Qed.

Lemma topics_delete_spec (i : ObjectId) (st : Store) (t : Topic) :
  In t (topics (Topics.delete i st)) <-> In t (topics st) /\ topic_id t <> i.
Proof.
  unfold Topics.delete. cbn. rewrite filter_In.
  rewrite negb_true_iff, Nat.eqb_neq. reflexivity.
Qed.

Lemma topics_delete_absent (i : ObjectId) (st : Store) :
  Topics.by_id i (Topics.delete i st) = None.
Proof.
  unfold Topics.by_id.
  destruct (List.find _ _) as [t |] eqn:Hfind; [| reflexivity].
  apply find_some in Hfind. destruct Hfind as (Hin & Heq).
  apply topics_delete_spec in Hin. apply Nat.eqb_eq in Heq. tauto.
Qed.

(** C2.  When all nine writes of the slug fail, the post (the topic)
    that was created for the request is deleted: the store after the
    request holds no document with its identifier, and every other
    document is still there.  The handler raises a validation error with
    status 400 whose field is "title" for a post and "name" for a
    topic. *)
Theorem slug_exhaustion_rolls_back :
  (forall (slugify : string -> string) (rnd : nat -> string)
          (placeholder : string) (post_data : PostCreate) (user : User)
          (st : Store) (post : Post) (st1 : Store),
      Posts.create (draft_post placeholder post_data user st) st
      = Some (post, st1) ->
      all_fail (Posts.update_slug (post_id post)) rnd
               (slugify (pc_title post_data)) st1 ->
      exists e st',
        create_posts slugify rnd placeholder post_data user st
        = (Raise e, st')
        /\ code e = VALIDATION_ERROR
        /\ status_code e = HTTP_400_BAD_REQUEST
        /\ field e = Some "title"
        /\ Posts.by_id (post_id post) st' = None
        /\ (forall p, In p (posts st') <->
                      In p (posts st1) /\ post_id p <> post_id post)
        /\ topics st' = topics st)
  /\ (forall (slugify lower : string -> string) (rnd : nat -> string)
             (topic_data : TopicIn) (user : User)
             (st : Store) (topic : Topic) (st1 : Store),
         Topics.get_or_create (lower (ti_name topic_data)) st
         = (topic, true, st1) ->
         all_fail (Topics.update_slug (topic_id topic) (user_id user)) rnd
                  (slugify (lower (ti_name topic_data))) st1 ->
         exists e st',
           create_topics slugify lower rnd topic_data user st = (Raise e, st')
           /\ code e = VALIDATION_ERROR
           /\ status_code e = HTTP_400_BAD_REQUEST
           /\ field e = Some "name"
           /\ Topics.by_id (topic_id topic) st' = None
           /\ (forall t, In t (topics st') <->
                         In t (topics st1) /\ topic_id t <> topic_id topic)
           /\ posts st' = posts st).
Proof.
  split.
  - intros slugify rnd placeholder post_data user st post st1 Hcreate Hall.
    destruct (create_posts_inserts slugify rnd _ _ _ _ _ _ Hcreate)
      as (Hpost & Hst & Heq).
    assert (Hid : post_id post = next_id st) by (rewrite Hpost; reflexivity).
    rewrite Hid in *.
    rewrite (slug_loop_all_fail _ _ _ _ Hall) in Heq.
    exists title_error, (Posts.delete (next_id st) st1).
    split; [exact Heq |]. do 3 (split; [reflexivity |]).
    split; [apply posts_delete_absent |].
    split; [intros p; apply posts_delete_spec |].
    rewrite Hst. reflexivity.
  - intros slugify lower rnd topic_data user st topic st1 Hgoc Hall.
    unfold Topics.get_or_create in Hgoc.
    destruct (List.find _ (topics st)) as [t |] eqn:Hfind;
      [discriminate |].
    injection Hgoc as <- <-.
    cbn [topic_id] in *.
    rewrite (create_topics_inserts slugify lower rnd topic_data user st Hfind).
    cbn zeta. rewrite (slug_loop_all_fail _ _ _ _ Hall).
    eexists. eexists. split; [reflexivity |].
    do 3 (split; [reflexivity |]).
    split; [apply topics_delete_absent |].
    split; [intros t; apply topics_delete_spec |].
    reflexivity.
Qed.

(** On [crowded_posts] and [crowded_topics] every candidate is taken:
    both creations fail and leave no document 10 behind. *)
Lemma slug_exhaustion_rolls_back_witness :
  (exists st',
      create_posts slugify_ascii sample_rand "65f0c1" hello_data alice
                   crowded_posts
      = (Raise title_error, st')
      /\ Posts.by_id 10 st' = None)
  /\ (exists st',
         create_topics slugify_ascii lower_ascii sample_rand (mkTopicIn "News") alice
                       crowded_topics
         = (Raise name_error, st')
         /\ Topics.by_id 10 st' = None).
Proof.
  split.
  - assert (Hall : all_fail (Posts.update_slug 10) sample_rand
                            (slugify_ascii (pc_title hello_data))
                            (mkStore (users crowded_posts)
                               (topics crowded_posts)
                               (posts crowded_posts
                                ++ [draft_post "65f0c1" hello_data alice
                                               crowded_posts 10])
                               11))
      by each_attempt_fails.
    destruct (proj1 slug_exhaustion_rolls_back
                    slugify_ascii sample_rand "65f0c1" hello_data alice
                    crowded_posts _ _ eq_refl Hall)
      as (e & st' & Hrun & _ & _ & _ & Habsent & _).
    exists st'. split; [| exact Habsent].
    rewrite Hrun. vm_compute in Hrun. injection Hrun as <- _. reflexivity.
  - assert (Hall : all_fail (Topics.update_slug 10 (user_id alice))
                            sample_rand
                            (slugify_ascii (lower_ascii "News"))
                            (mkStore (users crowded_topics)
                               (topics crowded_topics
                                ++ [mkTopic 10 (lower_ascii "News") None None])
                               (posts crowded_topics) 11))
      by each_attempt_fails.
    destruct (proj2 slug_exhaustion_rolls_back
                    slugify_ascii lower_ascii sample_rand (mkTopicIn "News")
                    alice crowded_topics _ _ eq_refl Hall)
      as (e & st' & Hrun & _ & _ & _ & Habsent & _).
    exists st'. split; [| exact Habsent].
    rewrite Hrun. vm_compute in Hrun. injection Hrun as <- _. reflexivity.
Defined.

(** ** C3: what the reads return *)

Lemma published_spec (now : datetime) (p : Post) :
  published now p = true <-> exists t, publish_at p = Some t /\ (t < now)%Z.
Proof.
  unfold published. destruct (publish_at p) as [t |].
  - rewrite Z.ltb_lt. split.
    + intros H. exists t. auto.
    + intros (t' & [= <-] & H). exact H.
  - split; [discriminate | intros (t & H & _); discriminate].
Qed.

Lemma mem_id_spec (i : ObjectId) (l : list ObjectId) :
  mem_id i l = true <-> In i l.
Proof.
  unfold mem_id. rewrite existsb_exists. split.
  - intros (j & Hin & Heq). apply Nat.eqb_eq in Heq. subst. exact Hin.
  - intros Hin. exists i. split; [exact Hin | apply Nat.eqb_refl].
Qed.

(** The filter of [get_posts] holds of the visible posts, and of no
    other. *)
Lemma list_filter_spec (now : datetime) (q : option string)
      (topics : list ObjectId) (author : option ObjectId) (p : Post) :
  list_filter now q topics author p = true <-> visible now q topics author p.
Proof.
  unfold list_filter, visible.
  rewrite !andb_true_iff, published_spec.
  assert (Ha : match author with
               | Some a => (author_id p =? a)%nat
               | None => true
               end = true
               <-> (forall a, author = Some a -> author_id p = a)).
  { destruct author as [a |].
    - rewrite Nat.eqb_eq. split; [intros H a' [= <-]; exact H | auto].
    - split; [intros _ a H; discriminate | reflexivity]. }
  assert (Ht : match topics with
               | [] => true
               | _ :: _ => existsb (fun i => mem_id i topics) (topic_ids p)
               end = true
               <-> (topics <> [] ->
                    exists i, In i (topic_ids p) /\ In i topics)).
  { destruct topics as [| j topics'].
    - split; [intros _ H; congruence | reflexivity].
    - rewrite existsb_exists. split.
      + intros (i & Hin & Hm) _. exists i.
        split; [exact Hin | apply mem_id_spec; exact Hm].
      + intros H. destruct H as (i & Hin & Hm); [discriminate |].
        exists i. split; [exact Hin | apply mem_id_spec; exact Hm]. }
  assert (Hq : (if truthy q
                then match q with Some t => title p =? t | None => true end
                else true) = true
               <-> (forall t, q = Some t -> t <> "" -> title p = t)).
  { destruct q as [t |]; cbn.
    - destruct (String.eqb_spec t "") as [-> | Hne]; cbn.
      + split; [intros _ t [= <-] H; congruence | reflexivity].
      + rewrite String.eqb_eq. split; [intros H t' [= <-] _; exact H | auto].
    - split; [intros _ t H; discriminate | reflexivity]. }
  rewrite Ha, Ht, Hq. tauto.
Qed.

Lemma paginate_incl {A : Type} (offset limit : nat) (l : list A) (x : A) :
  In x (paginate offset limit l) -> In x l.
Proof.
  unfold paginate. intros H.
  rewrite <- (firstn_skipn offset l). apply in_or_app. right.
  destruct (limit =? 0)%nat; [exact H |].
  rewrite <- (firstn_skipn limit (skipn offset l)).
  apply in_or_app. left. exact H.
Qed.

(** Without an offset and without a limit the page is the whole list. *)
Lemma paginate_all {A : Type} (l : list A) : paginate 0 0 l = l.
Proof. reflexivity. Qed.

(** A page that starts at 0 and is long enough is the whole list. *)
Lemma paginate_enough {A : Type} (limit : nat) (l : list A) :
  List.length l <= limit -> paginate 0 limit l = l.
Proof.
  intros Hlen. unfold paginate. cbn [skipn].
  destruct (limit =? 0)%nat; [reflexivity |].
  apply firstn_all2. exact Hlen.
Qed.

(** C3, as stated, fails: with two visible posts and a limit of 1 the
    listing holds the first of them only. *)
Lemma listing_is_paged_counterexample :
  ~ lists_exactly_visible get_offset_pages 10%Z 1 1 None [] None small_store.
Proof.
  intros H.
  specialize (H (hello_post 4 "hello-kk" (Some 6%Z))).
  destruct H as [H _]; [cbn; auto |].
  destruct H as (l & Hget & Hin).
  - apply list_filter_spec. reflexivity.
  - injection Hget as <-. cbn in Hin.
    destruct Hin as [Heq | []]. discriminate.
Qed.

(** C3, amended.  The listing is the page, chosen by offset and limit,
    of the posts that are visible: those whose [publish_at] is set and
    strictly before [now], narrowed by the title, the author and the
    topics when the request gives them; its count is the number of all
    visible posts.  Every listed post is a visible post of the store.
    The detail read answers with a post only if that post has the slug
    asked for and is published, and raises when no post with that slug
    is published. *)
Theorem reads_only_published :
  forall (get_offset : nat -> nat -> nat) (now : datetime)
         (page limit : nat) (q : option string) (topics : list ObjectId)
         (author : option ObjectId) (st : Store),
    let matching := filter (list_filter now q topics author) (posts st) in
    (forall p, In p matching <->
               In p (posts st) /\ visible now q topics author p)
    /\ get_posts get_offset now page limit q topics author st
       = Respond HTTP_200_OK
           (mkListing (List.length matching)
              (map (to_list_out st)
                   (paginate (get_offset page limit) limit matching)))
    /\ (forall status l o,
           get_posts get_offset now page limit q topics author st
           = Respond status l ->
           In o (results l) ->
           exists p t,
             In p (posts st) /\ visible now q topics author p
             /\ o = to_list_out st p
             /\ lo_publish_at o = Some t /\ (t < now)%Z)
    /\ (forall slug0 status d,
           get_post_details now slug0 st = Respond status d ->
           exists p t,
             In p (posts st) /\ slug p = slug0
             /\ publish_at p = Some t /\ (t < now)%Z
             /\ do_id d = post_id p /\ do_publish_at d = Some t)
    /\ (forall slug0,
           (forall p, In p (posts st) -> slug p = slug0 ->
                      publish_at p = None
                      \/ exists t, publish_at p = Some t /\ (now <= t)%Z) ->
           exists e, get_post_details now slug0 st = Raise e).
Proof.
  intros get_offset now page limit q topics author st matching.
  assert (Hmatch : forall p, In p matching <->
                             In p (posts st)
                             /\ visible now q topics author p).
  { intros p. unfold matching. rewrite filter_In, list_filter_spec.
    reflexivity. }
  split; [exact Hmatch |]. split; [reflexivity |]. split; [| split].
  - intros status l o Hget Hin.
    unfold get_posts in Hget. injection Hget as _ <-. cbn in Hin.
    apply in_map_iff in Hin. destruct Hin as (p & <- & Hp).
    apply paginate_incl in Hp. apply Hmatch in Hp.
    destruct Hp as (Hin & Hvis).
    destruct (proj1 Hvis) as (t & Ht & Hlt).
    exists p, t. cbn.
    exact (conj Hin (conj Hvis (conj eq_refl (conj Ht Hlt)))).
  - intros slug0 status d Hget. unfold get_post_details, Posts.get in Hget.
    destruct (List.find _ (posts st)) as [p |] eqn:Hfind; [| discriminate].
    apply find_some in Hfind. destruct Hfind as (Hin & Hf).
    apply andb_true_iff in Hf. destruct Hf as (Hslug & Hpub).
    apply String.eqb_eq in Hslug. apply published_spec in Hpub.
    destruct Hpub as (t & Ht & Hlt).
    destruct (get_user (author_id p) st); [| discriminate].
    injection Hget as _ <-. exists p, t. cbn.
    exact (conj Hin (conj Hslug (conj Ht (conj Hlt (conj eq_refl Ht))))).
  - intros slug0 Hnone. unfold get_post_details, Posts.get.
    destruct (List.find _ (posts st)) as [p |] eqn:Hfind.
    + apply find_some in Hfind. destruct Hfind as (Hin & Hf).
      apply andb_true_iff in Hf. destruct Hf as (Hslug & Hpub).
      apply String.eqb_eq in Hslug. apply published_spec in Hpub.
      destruct Hpub as (t & Ht & Hlt).
      destruct (Hnone p Hin Hslug) as [Hn | (t' & Ht' & Hle)].
      * congruence.
      * assert (t' = t) by congruence. lia.
    + eexists. reflexivity.
Qed.

(** On [small_store] at time 10: page 1 with limit 1 lists post 3 out of
    two visible posts, and the post without a publication time is not
    found by its slug. *)
Lemma reads_only_published_witness :
  get_posts get_offset_pages 10%Z 1 1 None [] None small_store
  = Respond HTTP_200_OK
      (mkListing 2 [to_list_out small_store (hello_post 3 "hello" (Some 5%Z))])
  /\ exists e, get_post_details 10%Z "draft" small_store = Raise e.
Proof.
  destruct (reads_only_published get_offset_pages 10%Z 1 1 None [] None
                                 small_store)
    as (_ & Hget & _ & _ & Hdetail).
  split.
  - rewrite Hget. reflexivity.
  - apply Hdetail. intros p Hin Hslug. cbn in Hin.
    destruct Hin as [<- | [<- | [<- | []]]];
      try discriminate Hslug.
    left. reflexivity.
Defined.

(** ** Lists without duplicates *)

Lemma NoDup_map_eq {A B : Type} (f : A -> B) (l : list A) (a b : A) :
  NoDup (map f l) -> In a l -> In b l -> f a = f b -> a = b.
Proof.
  induction l as [| x l IH]; cbn; intros Hnd Ha Hb Hf; [contradiction |].
  inversion Hnd as [| y l' Hnotin Hnd']; subst.
  destruct Ha as [-> | Ha], Hb as [-> | Hb].
  - reflexivity.
  - exfalso. apply Hnotin. rewrite Hf. apply in_map. exact Hb.
  - exfalso. apply Hnotin. rewrite <- Hf. apply in_map. exact Ha.
  - apply IH; assumption.
Qed.

Lemma map_ext_in_replace {A B : Type} (f : A -> B) (g : A -> A)
      (l : list A) :
  (forall x, In x l -> f (g x) = f x) -> map f (map g l) = map f l.
Proof.
  intros H. rewrite map_map. apply map_ext_in. exact H.
Qed.

(** ** Writing a post back *)

Lemma updated_post_keeps (post : Post) (post_data : PostUpdate) :
  post_id (updated_post post post_data) = post_id post
  /\ author_id (updated_post post post_data) = author_id post
  /\ slug (updated_post post post_data) = slug post
  /\ topic_ids (updated_post post post_data)
     = merge (pu_tag_ids post_data) (topic_ids post).
Proof.
  unfold updated_post.
  destruct (negb _ && _); cbn; auto.
Qed.

(** In a store whose posts have distinct identifiers and distinct slugs,
    writing back a document that kept both goes through, and every
    post keeps its identifier and its slug. *)
Lemma posts_update_keeps_slugs (doc post : Post) (st : Store) :
  NoDup (map post_id (posts st)) ->
  NoDup (map slug (posts st)) ->
  In post (posts st) ->
  post_id doc = post_id post ->
  slug doc = slug post ->
  exists st',
    Posts.update doc st = Some st'
    /\ posts st'
       = map (fun p => if (post_id p =? post_id post)%nat then doc else p)
             (posts st)
    /\ map slug (posts st') = map slug (posts st)
    /\ map post_id (posts st') = map post_id (posts st)
    /\ users st' = users st /\ topics st' = topics st
    /\ next_id st' = next_id st.
Proof.
  intros Hids Hslugs Hin Hid Hslug. unfold Posts.update.
  assert (Hfree : Posts.slug_taken (Some (post_id doc)) (slug doc) (posts st)
                  = false).
  { unfold Posts.slug_taken.
    destruct (existsb _ _) eqn:Hex; [| reflexivity].
    apply existsb_exists in Hex. destruct Hex as (p & Hp & Hc).
    apply andb_true_iff in Hc. destruct Hc as (Hs & Hne).
    apply String.eqb_eq in Hs. apply negb_true_iff, Nat.eqb_neq in Hne.
    exfalso. apply Hne. rewrite Hid. f_equal.
    apply (NoDup_map_eq slug (posts st)); auto. congruence. }
  rewrite Hfree, Hid. eexists. split; [reflexivity |]. cbn.
  split; [reflexivity |].
  split; [| split; [| auto]].
  - apply map_ext_in_replace. intros p Hp.
    destruct (Nat.eqb_spec (post_id p) (post_id post)) as [Heq | _];
      [| reflexivity].
    rewrite Hslug. f_equal. symmetry.
    apply (NoDup_map_eq post_id (posts st)); auto.
  - apply map_ext_in_replace. intros p Hp.
    destruct (Nat.eqb_spec (post_id p) (post_id post)) as [Heq | _];
      [| reflexivity].
    congruence.
Qed.

(** What [update_posts] answers to the author of the post. *)
Lemma update_posts_by_author (slug0 : string) (post_data : PostUpdate)
      (user : User) (st : Store) (post : Post) :
  NoDup (map post_id (posts st)) ->
  NoDup (map slug (posts st)) ->
  Posts.get (fun p => slug p =? slug0) st = Some post ->
  author_id post = user_id user ->
  exists st',
    update_posts slug0 post_data user st
    = (Respond HTTP_200_OK "Post Updated", st')
    /\ posts st'
       = map (fun p => if (post_id p =? post_id post)%nat
                       then updated_post post post_data else p)
             (posts st)
    /\ map slug (posts st') = map slug (posts st)
    /\ map post_id (posts st') = map post_id (posts st)
    /\ users st' = users st /\ topics st' = topics st
    /\ next_id st' = next_id st.
Proof.
  intros Hids Hslugs Hget Hauthor.
  unfold update_posts, get_object_or_404. rewrite Hget.
  rewrite Hauthor, Nat.eqb_refl. cbn [negb].
  unfold Posts.get in Hget. apply find_some in Hget.
  destruct Hget as (Hin & _).
  destruct (updated_post_keeps post post_data) as (Hid & _ & Hslug & _).
  destruct (posts_update_keeps_slugs _ post st Hids Hslugs Hin Hid Hslug)
    as (st' & Hup & Hrest).
  rewrite Hup. exists st'. split; [reflexivity | exact Hrest].
Qed.

(** ** C4: the status of a detail read that finds nothing *)

(** Whatever makes the detail read fail, it raises the same error. *)
Lemma get_post_details_raises (now : datetime) (slug0 : string)
      (st : Store) (e : CustomException) :
  get_post_details now slug0 st = Raise e -> e = not_found_error.
Proof.
  unfold get_post_details.
  destruct (Posts.get _ st) as [post |]; [| intros [= <-]; reflexivity].
  destruct (get_user (author_id post) st); [discriminate |].
  intros [= <-]. reflexivity.
Qed.

(** C4.  A slug that no post has, a post that is not published and a
    post whose author is missing all end in the error with the code
    [OBJECT_NOT_FOUND], and the status of that error is 400, not 404. *)
Theorem detail_not_found_status :
  get_post_details 10%Z "missing" small_store = Raise not_found_error
  /\ get_post_details 10%Z "draft" small_store = Raise not_found_error
  /\ get_post_details 10%Z "ghost" orphan_store = Raise not_found_error
  /\ code not_found_error = OBJECT_NOT_FOUND
  /\ status_code not_found_error = 400
  /\ status_code not_found_error <> HTTP_404_NOT_FOUND.
Proof.
  repeat split; try reflexivity. discriminate.
Qed.

(** ** C5: what an update writes *)

(** The fields of the document that [update_posts] writes back.  Every
    field but the short description is the stored one unless the request
    provides it.  The short description is the one of the request when
    that is not empty, else the first 200 characters of the description
    of the request when that is not empty, else whatever the request
    reads as: [None] when it does not send the field. *)
Lemma updated_post_fields (post : Post) (post_data : PostUpdate) :
  let doc := updated_post post post_data in
  title doc = merge (pu_title post_data) (title post)
  /\ description doc = merge (pu_description post_data) (description post)
  /\ cover_image doc = merge (pu_cover_image post_data) (cover_image post)
  /\ publish_at doc = merge (pu_publish_at post_data) (publish_at post)
  /\ short_description doc
     = if truthy (read (pu_short_description post_data))
       then read (pu_short_description post_data)
       else if truthy (read (pu_description post_data))
            then Some (get_short_description
                         (read (pu_description post_data)))
            else read (pu_short_description post_data).
Proof.
  unfold updated_post. cbn [set_short_description short_description].
  destruct (truthy (read (pu_short_description post_data)));
    destruct (truthy (read (pu_description post_data)));
    cbn; auto.
Qed.

(** C5.  The author of post 3 of [small_store] sends a new title and
    nothing else.  The post had the short description "short"; after the
    update it has none, although the request did not mention the
    field.  The description, which the request did not mention either,
    is kept. *)
Theorem update_drops_short_description :
  exists st' before after,
    update_posts "hello" retitle alice small_store
    = (Respond HTTP_200_OK "Post Updated", st')
    /\ Posts.by_id 3 small_store = Some before
    /\ Posts.by_id 3 st' = Some after
    /\ pu_short_description retitle = Unset
    /\ short_description before = Some "short"
    /\ short_description after = None
    /\ title after = "Goodbye"
    /\ description after = description before.
Proof.
  do 3 eexists. repeat split; reflexivity.
Qed.

(** ** C7 and C8: deletion and requests of somebody else *)

(** C7.  When the author deletes a post, the answer is 200 with the
    message "Deleted", and the store is the one before the request:
    the post is still there, as it was. *)
Theorem delete_post_keeps_the_post :
  forall (slug0 : string) (user : User) (st : Store) (post : Post),
    Posts.get (fun p => slug p =? slug0) st = Some post ->
    author_id post = user_id user ->
    delete_post slug0 user st = (Respond HTTP_200_OK "Deleted", st)
    /\ In post (posts st).
Proof.
  intros slug0 user st post Hget Hauthor.
  unfold delete_post, get_object_or_404. rewrite Hget.
  rewrite Hauthor, Nat.eqb_refl. split; [reflexivity |].
  apply find_some in Hget. tauto.
Qed.

Lemma delete_post_keeps_the_post_witness :
  delete_post "hello" alice small_store
  = (Respond HTTP_200_OK "Deleted", small_store)
  /\ In (hello_post 3 "hello" (Some 5%Z)) (posts small_store).
Proof.
  apply delete_post_keeps_the_post; reflexivity.
Defined.

(** C8.  When somebody who is not the author of an existing post asks to
    update or to delete it, the handler raises an error with status 403
    and code [PERMISSION_ERROR], and the store is the one before the
    request. *)
Theorem non_author_is_refused :
  forall (slug0 : string) (post_data : PostUpdate) (user : User)
         (st : Store) (post : Post),
    Posts.get (fun p => slug p =? slug0) st = Some post ->
    author_id post <> user_id user ->
    (exists e,
        update_posts slug0 post_data user st = (Raise e, st)
        /\ status_code e = HTTP_403_FORBIDDEN
        /\ status_code e = 403
        /\ code e = PERMISSION_ERROR)
    /\ (exists e,
           delete_post slug0 user st = (Raise e, st)
           /\ status_code e = HTTP_403_FORBIDDEN
           /\ status_code e = 403
           /\ code e = PERMISSION_ERROR).
Proof.
  intros slug0 post_data user st post Hget Hother.
  apply Nat.eqb_neq in Hother.
  unfold update_posts, delete_post, get_object_or_404.
  rewrite Hget, Hother. cbn [negb].
  split; eexists; (split; [reflexivity |]); repeat split.
Qed.

Lemma non_author_is_refused_witness :
  (exists e,
      update_posts "hello" retitle bob small_store = (Raise e, small_store)
      /\ status_code e = HTTP_403_FORBIDDEN
      /\ status_code e = 403
      /\ code e = PERMISSION_ERROR)
  /\ (exists e,
         delete_post "hello" bob small_store = (Raise e, small_store)
         /\ status_code e = HTTP_403_FORBIDDEN
         /\ status_code e = 403
         /\ code e = PERMISSION_ERROR).
Proof.
  apply (non_author_is_refused "hello" retitle bob small_store
           (hello_post 3 "hello" (Some 5%Z))).
  - reflexivity.
  - cbn. lia.
Defined.

(** ** C9: the short description of a new post *)

Lemma get_short_description_prefix (d : option string) :
  get_short_description d
  = match d with
    | Some s => prefix 200 s
    | None => ""
    end.
Proof.
  destruct d as [s |]; [| reflexivity]. cbn.
  destruct (String.eqb_spec s "") as [-> | _]; reflexivity.
Qed.

Lemma create_short_description_spec (post_data : PostCreate) :
  create_short_description post_data
  = short_description_when_nonempty post_data.
Proof.
  unfold create_short_description, short_description_when_nonempty, truthy.
  rewrite get_short_description_prefix.
  destruct (pc_short_description post_data) as [s |];
    [destruct (s =? "") |];
    destruct (pc_description post_data); reflexivity.
Qed.

(** C9, as stated, fails: a request that sends the empty string as its
    short description, with the description "abc", is stored with the
    short description "abc". *)
Lemma empty_short_description_counterexample :
  ~ stores_short_description_as_given slugify_ascii sample_rand "65f0c1"
      empty_summary_data alice empty_store.
Proof.
  intros H.
  specialize (H _ _ _ eq_refl). discriminate H.
Qed.

(** C9, amended.  A created post is stored with the short description
    of the request when that is given and not empty; otherwise with the
    first 200 characters of the description of the request; and with
    the empty string when the description is absent or empty too. *)
Theorem created_short_description :
  forall (slugify : string -> string) (rnd : nat -> string)
         (placeholder : string) (post_data : PostCreate) (user : User)
         (st : Store) (status : nat) (post : Post) (st' : Store),
    create_posts slugify rnd placeholder post_data user st
    = (Respond status post, st') ->
    In post (posts st')
    /\ short_description post = short_description_when_nonempty post_data
    /\ (forall s, pc_short_description post_data = Some s -> s <> "" ->
                  short_description post = Some s)
    /\ (~ (exists s, pc_short_description post_data = Some s /\ s <> "") ->
        forall d, pc_description post_data = Some d ->
                  short_description post = Some (prefix 200 d))
    /\ (~ (exists s, pc_short_description post_data = Some s /\ s <> "") ->
        pc_description post_data = None
        \/ pc_description post_data = Some "" ->
        short_description post = Some "").
Proof.
  intros slugify rnd placeholder post_data user st status post st' Hrun.
  destruct (create_posts_first_success _ _ _ _ _ _ _ _ _ Hrun)
    as (_ & _ & _ & _ & _ & Hin).
  destruct (create_posts_responds _ _ _ _ _ _ _ _ _ Hrun)
    as (new_slug & _ & _ & ->).
  split; [exact Hin |].
  cbn [set_slug draft_post short_description].
  rewrite create_short_description_spec.
  unfold short_description_when_nonempty.
  split; [reflexivity |].
  destruct (pc_short_description post_data) as [s |].
  - destruct (String.eqb_spec s "") as [-> | Hne].
    + split; [intros s [= <-] H; congruence |].
      split.
      * intros _ d ->. reflexivity.
      * intros _ [-> | ->]; reflexivity.
    + split; [intros s' [= <-] _; reflexivity |].
      split; intros H; exfalso; apply H; exists s; auto.
  - split; [intros s H; discriminate |].
    split.
    + intros _ d ->. reflexivity.
    + intros _ [-> | ->]; reflexivity.
Qed.

(** A post without a short description and with 500 letters "A" as its
    description is stored with 200 letters "A". *)
Lemma created_short_description_witness :
  exists post st',
    create_posts slugify_ascii sample_rand "65f0c1" long_text_data alice
                 empty_store
    = (Respond HTTP_201_CREATED post, st')
    /\ In post (posts st')
    /\ short_description post = Some (copies "A" 200).
Proof.
  eexists. eexists. split; [vm_compute; reflexivity |].
  destruct (created_short_description
              slugify_ascii sample_rand "65f0c1" long_text_data alice
              empty_store _ _ _ eq_refl)
    as (Hin & Hsd & _).
  split; [exact Hin | reflexivity].
Defined.

(** ** Lookups after a write *)

Lemma find_map_same {A : Type} (f : A -> bool) (g : A -> A) (l : list A) :
  (forall x, In x l -> f (g x) = f x) ->
  List.find f (map g l) = option_map g (List.find f l).
Proof.
  induction l as [| x l IH]; intros H; [reflexivity |].
  cbn. rewrite (H x) by (left; reflexivity).
  destruct (f x); [reflexivity |].
  apply IH. intros y Hy. apply H. right. exact Hy.
Qed.

Lemma well_formed_small_store : well_formed small_store.
Proof.
  constructor; cbn;
    repeat (constructor; cbn; try lia; try (intuition discriminate)).
Qed.

(** ** C6: slugs in reachable stores *)

Section Collections.

Variables (A B : Type) (key : A -> nat) (f : A -> B).

Lemma NoDup_snoc (l : list B) (x : B) :
  NoDup l -> ~ In x l -> NoDup (l ++ [x]).
Proof.
  intros Hnd Hnotin. apply NoDup_app.
  - exact Hnd.
  - constructor; [intros [] | constructor].
  - intros y Hy [<- | []]. exact (Hnotin Hy).
Qed.

Lemma NoDup_map_filter (keep : A -> bool) (l : list A) :
  NoDup (map f l) -> NoDup (map f (filter keep l)).
Proof.
  induction l as [| x l IH]; cbn; intros Hnd; [constructor |].
  inversion Hnd as [| y l' Hnotin Hnd']; subst.
  destruct (keep x); [| apply IH; exact Hnd'].
  cbn. constructor; [| apply IH; exact Hnd'].
  intros Hin. apply Hnotin.
  apply in_map_iff in Hin. destruct Hin as (z & Hz & Hin).
  apply filter_In in Hin. rewrite <- Hz. apply in_map. tauto.
Qed.

(** A write to the document [n] leaves a list of older documents as
    it is. *)
Lemma map_update_older (n : nat) (u : A -> A) (l : list A) :
  Forall (fun x => key x < n) l ->
  map (fun x => if (key x =? n)%nat then u x else x) l = l.
Proof.
  induction 1 as [| x l Hx _ IH]; cbn; [reflexivity |].
  destruct (Nat.eqb_spec (key x) n) as [Heq | _]; [lia |].
  rewrite IH. reflexivity.
Qed.

(** Deleting the document [n] leaves a list of older documents as it
    is. *)
Lemma filter_older (n : nat) (l : list A) :
  Forall (fun x => key x < n) l ->
  filter (fun x => negb (key x =? n)%nat) l = l.
Proof.
  induction 1 as [| x l Hx _ IH]; cbn; [reflexivity |].
  destruct (Nat.eqb_spec (key x) n) as [Heq | _]; [lia |].
  cbn. rewrite IH. reflexivity.
Qed.

Lemma Forall_lt_S (n : nat) (l : list A) :
  Forall (fun x => key x < n) l -> Forall (fun x => key x < S n) l.
Proof.
  apply Forall_impl. intros x Hx. lia.
Qed.

Lemma fresh_key (n : nat) (l : list A) :
  Forall (fun x => key x < n) l -> ~ In n (map key l).
Proof.
  intros Hall Hin. apply in_map_iff in Hin.
  destruct Hin as (x & Heq & Hx).
  rewrite Forall_forall in Hall. specialize (Hall x Hx). lia.
Qed.

End Collections.

Lemma well_formed_initial (n : ObjectId) : well_formed (initial n).
Proof.
  constructor; cbn; constructor.
Qed.

(** The documents decide: a store with the same posts and topics and a
    counter that is not smaller is well formed too. *)
Lemma well_formed_same_documents (st st' : Store) :
  well_formed st ->
  map post_id (posts st') = map post_id (posts st) ->
  map slug (posts st') = map slug (posts st) ->
  topics st' = topics st ->
  next_id st <= next_id st' ->
  well_formed st'.
Proof.
  intros [H1 H2 H3 H4 H5 H6 H7] Hids Hslugs Htopics Hnext.
  constructor.
  - apply Forall_forall. intros p Hp.
    assert (Hin : In (post_id p) (map post_id (posts st)))
      by (rewrite <- Hids; apply in_map; exact Hp).
    apply in_map_iff in Hin. destruct Hin as (p' & Heq & Hp').
    rewrite Forall_forall in H1. specialize (H1 p' Hp'). lia.
  - rewrite Hids. exact H2.
  - rewrite Hslugs. exact H3.
  - rewrite Htopics. revert H4. apply Forall_impl. intros t Ht. lia.
  - rewrite Htopics. exact H5.
  - rewrite Htopics. exact H6.
  - rewrite Htopics. exact H7.
Qed.

Lemma posts_slug_free (n : ObjectId) (new_slug : string) (l : list Post)
      (x : Post) :
  Forall (fun p => post_id p < n) l ->
  Posts.slug_taken (Some n) new_slug (l ++ [x]) = false ->
  ~ In new_slug (map slug l).
Proof.
  intros Hold Hfree Hin. apply in_map_iff in Hin.
  destruct Hin as (p & Hslug & Hp).
  rewrite Forall_forall in Hold. specialize (Hold p Hp).
  enough (Posts.slug_taken (Some n) new_slug (l ++ [x]) = true) by congruence.
  apply existsb_exists. exists p. split; [apply in_or_app; auto |].
  rewrite Hslug, String.eqb_refl. cbn.
  apply negb_true_iff, Nat.eqb_neq. lia.
Qed.

Lemma topics_slug_free (n : ObjectId) (new_slug : string) (l : list Topic)
      (x : Topic) :
  Forall (fun t => topic_id t < n) l ->
  Topics.slug_taken n new_slug (l ++ [x]) = false ->
  ~ In (Some new_slug) (map topic_slug l).
Proof.
  intros Hold Hfree Hin. apply in_map_iff in Hin.
  destruct Hin as (t & Hslug & Ht).
  rewrite Forall_forall in Hold. specialize (Hold t Ht).
  enough (Topics.slug_taken n new_slug (l ++ [x]) = true) by congruence.
  apply existsb_exists. exists t. split; [apply in_or_app; auto |].
  rewrite Hslug. cbn. rewrite String.eqb_refl. cbn.
  apply negb_true_iff, Nat.eqb_neq. lia.
Qed.

(** The write of the slug of the post that was just inserted. *)
Lemma update_slug_of_last (new_slug : string) (st st2 : Store) (x : Post) :
  well_formed st ->
  post_id x = next_id st ->
  Posts.update_slug (next_id st) new_slug
    (mkStore (users st) (topics st) (posts st ++ [x]) (S (next_id st)))
  = Some st2 ->
  st2 = mkStore (users st) (topics st)
                (posts st ++ [set_slug new_slug x]) (S (next_id st))
  /\ well_formed st2.
Proof.
  intros Hwf Hid Hup. unfold Posts.update_slug in Hup. cbn [posts] in Hup.
  destruct (Posts.slug_taken (Some (next_id st)) new_slug (posts st ++ [x]))
    eqn:Hfree; [discriminate |].
  injection Hup as <-. unfold with_posts.
  cbn [users topics posts next_id].
  rewrite map_app, (map_update_older _ post_id _ _ _ (wf_post_ids Hwf)).
  cbn. rewrite Hid, Nat.eqb_refl.
  split; [reflexivity |].
  destruct Hwf as [H1 H2 H3 H4 H5 H6 H7].
  constructor; cbn.
  - apply Forall_app. split; [apply Forall_lt_S; exact H1 |].
    constructor; [cbn; lia | constructor].
  - rewrite map_app. cbn. apply NoDup_snoc; [exact H2 |].
    rewrite Hid. apply fresh_key. exact H1.
  - rewrite map_app. cbn. apply NoDup_snoc; [exact H3 |].
    eapply posts_slug_free; eassumption.
  - apply Forall_lt_S. exact H4.
  - exact H5.
  - exact H6.
  - exact H7.
Qed.

(** Deleting the document that was just inserted gives back the lists
    of before. *)
Lemma delete_last_post (st : Store) (x : Post) :
  well_formed st ->
  post_id x = next_id st ->
  let st' := Posts.delete (next_id st)
               (mkStore (users st) (topics st) (posts st ++ [x])
                        (S (next_id st))) in
  posts st' = posts st /\ topics st' = topics st /\ well_formed st'.
Proof.
  intros Hwf Hid. cbn zeta.
  assert (Hposts : posts (Posts.delete (next_id st)
                     (mkStore (users st) (topics st) (posts st ++ [x])
                              (S (next_id st)))) = posts st).
  { unfold Posts.delete. cbn. rewrite filter_app.
    rewrite (filter_older _ post_id _ _ (wf_post_ids Hwf)). cbn.
    rewrite Hid, Nat.eqb_refl. cbn. apply app_nil_r. }
  split; [exact Hposts |]. split; [reflexivity |].
  apply (well_formed_same_documents st); auto.
  - rewrite Hposts. reflexivity.
  - rewrite Hposts. reflexivity.
  - cbn. lia.
Qed.

(** The write of the slug of the topic that was just inserted. *)
Lemma update_slug_of_last_topic (uid : ObjectId) (new_slug : string)
      (st st2 : Store) (x : Topic) :
  well_formed st ->
  topic_id x = next_id st ->
  Topics.update_slug (next_id st) uid new_slug
    (mkStore (users st) (topics st ++ [x]) (posts st) (S (next_id st)))
  = Some st2 ->
  st2 = mkStore (users st) (topics st ++ [set_topic_slug uid new_slug x])
                (posts st) (S (next_id st))
  /\ well_formed st2.
Proof.
  intros Hwf Hid Hup. unfold Topics.update_slug in Hup. cbn [topics] in Hup.
  destruct (Topics.slug_taken (next_id st) new_slug (topics st ++ [x]))
    eqn:Hfree; [discriminate |].
  injection Hup as <-. unfold with_topics.
  cbn [users topics posts next_id].
  rewrite map_app, (map_update_older _ topic_id _ _ _ (wf_topic_ids Hwf)).
  cbn. rewrite Hid, Nat.eqb_refl.
  split; [reflexivity |].
  destruct Hwf as [H1 H2 H3 H4 H5 H6 H7].
  constructor; cbn.
  - apply Forall_lt_S. exact H1.
  - exact H2.
  - exact H3.
  - apply Forall_app. split; [apply Forall_lt_S; exact H4 |].
    constructor; [cbn; lia | constructor].
  - rewrite map_app. cbn. apply NoDup_snoc; [exact H5 |].
    rewrite Hid. apply fresh_key. exact H4.
  - rewrite map_app. cbn. apply NoDup_snoc; [exact H6 |].
    eapply topics_slug_free; eassumption.
  - apply Forall_app. split; [exact H7 |].
    constructor; [cbn; discriminate | constructor].
Qed.

Lemma delete_last_topic (st : Store) (x : Topic) :
  well_formed st ->
  topic_id x = next_id st ->
  let st' := Topics.delete (next_id st)
               (mkStore (users st) (topics st ++ [x]) (posts st)
                        (S (next_id st))) in
  posts st' = posts st /\ topics st' = topics st /\ well_formed st'.
Proof.
  intros Hwf Hid. cbn zeta.
  assert (Htopics : topics (Topics.delete (next_id st)
                      (mkStore (users st) (topics st ++ [x]) (posts st)
                               (S (next_id st)))) = topics st).
  { unfold Topics.delete. cbn. rewrite filter_app.
    rewrite (filter_older _ topic_id _ _ (wf_topic_ids Hwf)). cbn.
    rewrite Hid, Nat.eqb_refl. cbn. apply app_nil_r. }
  split; [reflexivity |]. split; [exact Htopics |].
  apply (well_formed_same_documents st); auto.
  cbn. lia.
Qed.

(** Every handler that writes takes a well-formed store to a
    well-formed store. *)
Lemma create_posts_well_formed (slugify : string -> string)
      (rnd : nat -> string) (placeholder : string) (post_data : PostCreate)
      (user : User) (st : Store) :
  well_formed st ->
  well_formed (snd (create_posts slugify rnd placeholder post_data user st)).
Proof.
  intros Hwf.
  destruct (Posts.create (draft_post placeholder post_data user st) st)
    as [[post0 st1] |] eqn:Hcreate.
  - destruct (create_posts_inserts slugify rnd _ _ _ _ _ _ Hcreate)
      as (Hpost & Hst & Heq).
    assert (Hid : post_id post0 = next_id st) by (rewrite Hpost; reflexivity).
    rewrite Heq. subst st1.
    destruct (outcome _) as [[new_slug st2] |] eqn:Hr.
    + destruct (slug_loop_success _ _ _ _ _ _ Hr) as (n & _ & _ & _ & Hp).
      cbn [snd]. eapply update_slug_of_last; eassumption.
    + cbn [snd]. apply delete_last_post; assumption.
  - unfold create_posts. rewrite Hcreate. exact Hwf.
Qed.

Lemma create_topics_well_formed (slugify lower : string -> string)
      (rnd : nat -> string) (topic_data : TopicIn) (user : User)
      (st : Store) :
  well_formed st ->
  well_formed (snd (create_topics slugify lower rnd topic_data user st)).
Proof.
  intros Hwf.
  destruct (List.find (fun t => topic_name t =? lower (ti_name topic_data))
                      (topics st)) as [t |] eqn:Hfind.
  - rewrite (create_topics_existing slugify lower rnd _ _ _ _ Hfind). exact Hwf.
  - rewrite (create_topics_inserts slugify lower rnd _ _ _ Hfind). cbn zeta.
    destruct (outcome _) as [[new_slug st2] |] eqn:Hr.
    + destruct (slug_loop_success _ _ _ _ _ _ Hr) as (n & _ & _ & _ & Hp).
      cbn [snd].
      eapply (update_slug_of_last_topic _ _ _ _ _ Hwf); [| exact Hp].
      reflexivity.
    + cbn [snd]. apply delete_last_topic; [exact Hwf | reflexivity].
Qed.

Lemma update_posts_well_formed (slug0 : string) (post_data : PostUpdate)
      (user : User) (st : Store) :
  well_formed st ->
  well_formed (snd (update_posts slug0 post_data user st)).
Proof.
  intros Hwf.
  destruct (Posts.get (fun p => slug p =? slug0) st) as [post |] eqn:Hget.
  - destruct (Nat.eq_dec (author_id post) (user_id user)) as [Heq | Hne].
    + destruct (update_posts_by_author slug0 post_data user st post
                  (wf_post_ids_distinct Hwf) (wf_post_slugs_distinct Hwf)
                  Hget Heq)
        as (st' & Hrun & _ & Hslugs & Hids & _ & Htopics & Hnext).
      rewrite Hrun. cbn [snd].
      apply (well_formed_same_documents st); auto. lia.
    + unfold update_posts, get_object_or_404. rewrite Hget.
      apply Nat.eqb_neq in Hne. rewrite Hne. exact Hwf.
  - unfold update_posts, get_object_or_404. rewrite Hget. exact Hwf.
Qed.

Lemma delete_post_same_store (slug0 : string) (user : User) (st : Store) :
  snd (delete_post slug0 user st) = st.
Proof.
  unfold delete_post.
  destruct (get_object_or_404 _ st) as [post | e]; [| reflexivity].
  destruct (negb _); reflexivity.
Qed.

Lemma handle_well_formed (slugify lower : string -> string) (r : Request)
      (st : Store) :
  well_formed st -> well_formed (handle slugify lower r st).
Proof.
  intros Hwf. destruct r; cbn [handle].
  - apply create_topics_well_formed. exact Hwf.
  - apply create_posts_well_formed. exact Hwf.
  - apply update_posts_well_formed. exact Hwf.
  - rewrite delete_post_same_store. exact Hwf.
  - apply (well_formed_same_documents st); auto.
Qed.

Lemma run_well_formed (slugify lower : string -> string) (rs : list Request) :
  forall st, well_formed st -> well_formed (run slugify lower rs st).
Proof.
  unfold run. induction rs as [| r rs IH]; intros st Hwf; [exact Hwf |].
  cbn [fold_left]. apply IH. apply handle_well_formed. exact Hwf.
Qed.

Lemma reachable_well_formed (slugify lower : string -> string) (st : Store) :
  reachable slugify lower st -> well_formed st.
Proof.
  intros (n & rs & ->). apply run_well_formed. apply well_formed_initial.
Qed.


(** What one request does to the slugs of a well-formed store: it
    leaves the slugs of the posts and the topics as they are, or it is a
    creation and adds one post (one topic) under the candidate of one of
    its nine attempts. *)
Lemma handle_cases (slugify lower : string -> string) (r : Request)
      (st : Store) :
  well_formed st ->
  (map slug (posts (handle slugify lower r st)) = map slug (posts st)
   /\ topics (handle slugify lower r st) = topics st)
  \/ (exists rnd placeholder post_data user p n,
         r = CreatePost rnd placeholder post_data user
         /\ 1 <= n <= 9
         /\ slug p = candidate rnd (slugify (pc_title post_data)) n
         /\ posts (handle slugify lower r st) = (posts st ++ [p])%list
         /\ topics (handle slugify lower r st) = topics st)
  \/ (exists rnd topic_data user t n,
         r = CreateTopic rnd topic_data user
         /\ 1 <= n <= 9
         /\ topic_slug t
            = Some (candidate rnd (slugify (lower (ti_name topic_data))) n)
         /\ topics (handle slugify lower r st) = (topics st ++ [t])%list
         /\ posts (handle slugify lower r st) = posts st).
Proof.
  intros Hwf.
  destruct r as [rnd topic_data user | rnd placeholder post_data user
                 | slug0 post_data user | slug0 user | us]; cbn [handle].
  - destruct (List.find (fun t => topic_name t =? lower (ti_name topic_data))
                        (topics st)) as [t |] eqn:Hfind.
    + rewrite (create_topics_existing slugify lower rnd _ _ _ _ Hfind).
      left. split; reflexivity.
    + rewrite (create_topics_inserts slugify lower rnd _ _ _ Hfind).
      cbn zeta.
      destruct (outcome _) as [[new_slug st2] |] eqn:Hr; cbn [snd].
      * destruct (slug_loop_success _ _ _ _ _ _ Hr)
          as (n & (Hn & _) & _ & Hnew & Hp).
        destruct (update_slug_of_last_topic _ _ _ _
                    (mkTopic (next_id st) (lower (ti_name topic_data))
                             None None) Hwf eq_refl Hp)
          as (-> & _).
        right. right. cbn [topics posts].
        eexists rnd, topic_data, user, _, n.
        split; [reflexivity |]. split; [exact Hn |].
        split; [| split; reflexivity].
        cbn. rewrite Hnew. reflexivity.
      * destruct (delete_last_topic st
                    (mkTopic (next_id st) (lower (ti_name topic_data))
                             None None) Hwf eq_refl)
          as (H1 & H2 & _).
        left. cbn zeta in H1, H2. rewrite H1, H2. split; reflexivity.
  - destruct (Posts.create (draft_post placeholder post_data user st) st)
      as [[post0 st1] |] eqn:Hcreate.
    + destruct (create_posts_inserts slugify rnd _ _ _ _ _ _ Hcreate)
        as (Hpost & Hst & Heq).
      rewrite Heq. subst st1.
      assert (Hid : post_id post0 = next_id st)
        by (rewrite Hpost; reflexivity).
      destruct (outcome _) as [[new_slug st2] |] eqn:Hr; cbn [snd].
      * destruct (slug_loop_success _ _ _ _ _ _ Hr)
          as (n & (Hn & _) & _ & Hnew & Hp).
        destruct (update_slug_of_last _ _ _ _ Hwf Hid Hp) as (-> & _).
        right. left. cbn [topics posts].
        exists rnd, placeholder, post_data, user, (set_slug new_slug post0), n.
        split; [reflexivity |]. split; [exact Hn |].
        split; [exact Hnew |]. split; reflexivity.
      * destruct (delete_last_post st post0 Hwf Hid) as (H1 & H2 & _).
        left. cbn zeta in H1, H2. rewrite H1, H2. split; reflexivity.
    + unfold create_posts. rewrite Hcreate. left. split; reflexivity.
  - left.
    destruct (Posts.get (fun p => slug p =? slug0) st) as [post |] eqn:Hget.
    + destruct (Nat.eq_dec (author_id post) (user_id user)) as [Heq | Hne].
      * destruct (update_posts_by_author slug0 post_data user st post
                    (wf_post_ids_distinct Hwf) (wf_post_slugs_distinct Hwf)
                    Hget Heq)
          as (st' & Hrun & _ & Hslugs & _ & _ & Htopics & _).
        rewrite Hrun. cbn [snd]. split; assumption.
      * unfold update_posts, get_object_or_404. rewrite Hget.
        apply Nat.eqb_neq in Hne. rewrite Hne. split; reflexivity.
    + unfold update_posts, get_object_or_404. rewrite Hget.
      split; reflexivity.
  - left. rewrite delete_post_same_store. split; reflexivity.
  - left. split; reflexivity.
Qed.







(** ** C10: an update leaves the slug alone *)

(** The update of a post by its author, on a well-formed store. *)
Lemma update_posts_keeps_slug :
  forall (slug0 : string) (post_data : PostUpdate) (user : User)
         (st : Store) (post : Post),
    well_formed st ->
    Posts.get (fun p => slug p =? slug0) st = Some post ->
    author_id post = user_id user ->
    exists st',
      update_posts slug0 post_data user st
      = (Respond HTTP_200_OK "Post Updated", st')
      /\ map slug (posts st') = map slug (posts st)
      /\ map post_id (posts st') = map post_id (posts st)
      /\ Posts.get (fun p => slug p =? slug0) st'
         = Some (updated_post post post_data)
      /\ slug (updated_post post post_data) = slug post
      /\ slug post = slug0.
Proof.
  intros slug0 post_data user st post Hwf Hget Hauthor.
  destruct (update_posts_by_author slug0 post_data user st post
              (wf_post_ids_distinct Hwf) (wf_post_slugs_distinct Hwf)
              Hget Hauthor)
    as (st' & Hrun & Hposts & Hslugs & Hids & _).
  destruct (updated_post_keeps post post_data) as (Hid & _ & Hslug & _).
  exists st'. split; [exact Hrun |]. split; [exact Hslugs |].
  split; [exact Hids |].
  unfold Posts.get in *.
  pose proof (find_some _ _ Hget) as (Hin & Hs).
  split; [| split; [exact Hslug | apply String.eqb_eq; exact Hs]].
  rewrite Hposts, find_map_same.
  - rewrite Hget. cbn. rewrite Nat.eqb_refl. reflexivity.
  - intros p Hp.
    destruct (Nat.eqb_spec (post_id p) (post_id post)) as [Heq | _];
      [| reflexivity].
    rewrite Hslug. f_equal. f_equal. symmetry.
    apply (NoDup_map_eq post_id (posts st)); auto.
    apply (wf_post_ids_distinct Hwf).
Qed.

(** C10.  In every reachable store, when the author updates a post,
    whatever the request provides, the update goes through and every
    post of the store, the updated one among them, has the identifier
    and the slug it had before; the post is found under the same slug
    afterwards, with the fields the update wrote. *)
Theorem slug_survives_update :
  forall (slugify lower : string -> string) (slug0 : string)
         (post_data : PostUpdate) (user : User) (st : Store) (post : Post),
    reachable slugify lower st ->
    Posts.get (fun p => slug p =? slug0) st = Some post ->
    author_id post = user_id user ->
    exists st',
      update_posts slug0 post_data user st
      = (Respond HTTP_200_OK "Post Updated", st')
      /\ map slug (posts st') = map slug (posts st)
      /\ map post_id (posts st') = map post_id (posts st)
      /\ Posts.get (fun p => slug p =? slug0) st'
         = Some (updated_post post post_data)
      /\ slug (updated_post post post_data) = slug post
      /\ slug post = slug0.
Proof.
  intros slugify lower slug0 post_data user st post Hreach.
  apply update_posts_keeps_slug.
  apply (reachable_well_formed slugify lower). exact Hreach.
Qed.

(** Alice gives her post "hello" the title "Goodbye": it stays under
    "hello". *)
Lemma slug_survives_update_witness :
  exists st',
    update_posts "hello" retitle alice
                 (run slugify_ascii lower_ascii hello_requests (initial 0))
    = (Respond HTTP_200_OK "Post Updated", st')
    /\ map slug (posts st') = ["hello"]
    /\ option_map title (Posts.get (fun p => slug p =? "hello") st')
       = Some "Goodbye".
Proof.
  destruct (slug_survives_update slugify_ascii lower_ascii "hello" retitle alice
              (run slugify_ascii lower_ascii hello_requests (initial 0)) _
              (ex_intro _ 0 (ex_intro _ hello_requests eq_refl))
              eq_refl eq_refl)
    as (st' & Hrun & Hslugs & _ & Hget & _).
  exists st'. split; [exact Hrun |]. split; [exact Hslugs |].
  rewrite Hget. reflexivity.
Defined.

(** * Further properties of the handlers *)

(** ** The short description *)

Lemma prefix_length (n : nat) :
  forall s, String.length (prefix n s) = Nat.min n (String.length s).
Proof.
  unfold prefix. induction n as [| n IH]; intros [| c s]; cbn; try reflexivity.
  rewrite IH. reflexivity.
Qed.

Lemma prefix_all (n : nat) :
  forall s, String.length s <= n -> prefix n s = s.
Proof.
  unfold prefix. induction n as [| n IH]; intros [| c s]; cbn; intros H;
    try reflexivity; try lia.
  rewrite IH by lia. reflexivity.
Qed.

Lemma prefix_is_prefix (n : nat) :
  forall s, exists rest, s = prefix n s ++ rest.
Proof.
  unfold prefix. induction n as [| n IH]; intros [| c s]; cbn.
  - exists "". reflexivity.
  - exists (String c s). reflexivity.
  - exists "". reflexivity.
  - destruct (IH s) as (rest & Hrest). exists rest.
    rewrite <- Hrest. reflexivity.
Qed.

(** X1.  [get_short_description] never returns more than 200
    characters; what it returns is the start of the description, and the
    whole description when that has at most 200 characters; without a
    description it returns the empty string; applied to its own result
    it changes nothing. *)
Theorem get_short_description_is_bounded_prefix :
  forall d : option string,
    String.length (get_short_description d) <= 200
    /\ (forall s, d = Some s ->
                  exists rest, s = get_short_description d ++ rest)
    /\ (forall s, d = Some s -> String.length s <= 200 ->
                  get_short_description d = s)
    /\ (d = None -> get_short_description d = "")
    /\ get_short_description (Some (get_short_description d))
       = get_short_description d.
Proof.
  intros d.
  assert (Hlen : String.length (get_short_description d) <= 200).
  { rewrite get_short_description_prefix. destruct d as [s |]; cbn; [| lia].
    rewrite prefix_length. lia. }
  split; [exact Hlen |]. split; [| split; [| split]].
  - intros s ->. rewrite get_short_description_prefix.
    apply prefix_is_prefix.
  - intros s -> Hs. rewrite get_short_description_prefix.
    apply prefix_all. exact Hs.
  - intros ->. reflexivity.
  - rewrite (get_short_description_prefix (Some _)).
    apply prefix_all. exact Hlen.
Qed.

Lemma get_short_description_is_bounded_prefix_witness :
  get_short_description (Some (copies "A" 500)) = copies "A" 200
  /\ get_short_description (Some "abc") = "abc".
Proof.
  destruct (get_short_description_is_bounded_prefix (Some "abc"))
    as (_ & _ & Hall & _).
  split; [reflexivity |].
  apply Hall; [reflexivity | cbn; lia].
Defined.

(** ** Topics by name *)

Lemma find_app_none {A : Type} (f : A -> bool) (l l' : list A) :
  List.find f l = None -> List.find f (l ++ l') = List.find f l'.
Proof.
  induction l as [| x l IH]; cbn; [reflexivity |].
  destruct (f x); [discriminate | exact IH].
Qed.

Lemma find_app_some {A : Type} (f : A -> bool) (l l' : list A) (x : A) :
  List.find f l = Some x -> List.find f (l ++ l') = Some x.
Proof.
  induction l as [| y l IH]; cbn; [discriminate |].
  destruct (f y); [auto | exact IH].
Qed.

(** No run of requests takes a topic away or changes one. *)
Lemma run_keeps_topics (slugify lower : string -> string)
      (rs : list Request) :
  forall st, well_formed st ->
             exists more,
               topics (run slugify lower rs st) = (topics st ++ more)%list.
Proof.
  unfold run. induction rs as [| r rs IH]; intros st Hwf; cbn [fold_left].
  - exists []. rewrite app_nil_r. reflexivity.
  - destruct (IH _ (handle_well_formed slugify lower r st Hwf))
      as (more & Hmore).
    rewrite Hmore.
    destruct (handle_cases slugify lower r st Hwf)
      as [(_ & Ht) | [(? & ? & ? & ? & ? & ? & _ & _ & _ & _ & Ht)
                     | (? & ? & ? & t & ? & _ & _ & _ & Ht & _)]];
      rewrite Ht.
    + exists more. reflexivity.
    + exists more. reflexivity.
    + exists (t :: more). rewrite <- app_assoc. reflexivity.
Qed.

(** After a request that answered with a topic, the first topic of that
    name in the store is that topic. *)
Lemma create_topics_leaves_the_topic (slugify lower : string -> string)
      (rnd : nat -> string) (topic_data : TopicIn) (user : User)
      (st : Store) (status : nat) (topic : Topic) (st' : Store) :
  create_topics slugify lower rnd topic_data user st
  = (Respond status topic, st') ->
  exists topic',
    List.find (fun t => topic_name t =? lower (ti_name topic_data))
              (topics st') = Some topic'
    /\ topic_id topic' = topic_id topic
    /\ topic_name topic' = topic_name topic
    /\ topic_name topic' = lower (ti_name topic_data)
    /\ topic_slug topic' = topic_slug topic.
Proof.
  intros Hrun.
  destruct (List.find (fun t => topic_name t =? lower (ti_name topic_data))
                      (topics st)) as [t |] eqn:Hfind.
  - rewrite (create_topics_existing slugify lower rnd topic_data user st t
               Hfind) in Hrun.
    injection Hrun as _ <- <-.
    exists t. split; [exact Hfind |].
    apply find_some in Hfind. destruct Hfind as (_ & Heq).
    apply String.eqb_eq in Heq. auto.
  - rewrite (create_topics_inserts slugify lower rnd topic_data user st
               Hfind) in Hrun.
    cbn zeta in Hrun.
    destruct (outcome _) as [[new_slug st2] |] eqn:Hr in Hrun;
      [| discriminate].
    injection Hrun as _ <- <-.
    destruct (slug_loop_success _ _ _ _ _ _ Hr) as (n & _ & _ & _ & Hp).
    unfold Topics.update_slug in Hp. cbn [topics] in Hp.
    destruct (Topics.slug_taken _ _ _); [discriminate |].
    injection Hp as <-.
    set (t0 := mkTopic (next_id st) (lower (ti_name topic_data)) None None)
      in *.
    set (h := fun t : Topic =>
                if (topic_id t =? next_id st)%nat
                then set_topic_slug (user_id user) new_slug t else t).
    exists (h t0). split.
    + cbn [topics with_topics]. rewrite find_map_same.
      * rewrite (find_app_none _ _ _ Hfind). cbn.
        rewrite String.eqb_refl. reflexivity.
      * intros x _. unfold h.
        destruct (topic_id x =? next_id st)%nat; reflexivity.
    + unfold h, t0. cbn. rewrite Nat.eqb_refl. cbn. auto.
Qed.

(** X2.  [create_topics] is a get-or-create on the lower-cased name:
    once a request has answered with a topic, then after any further
    requests a request whose name has the same [str.lower()] as the
    first one, whoever sends it, is answered with the stored topic of
    the same identifier, name and slug, and writes nothing. *)
Theorem create_topics_again_returns_the_topic :
  forall (slugify lower : string -> string) (rnd rnd' : nat -> string)
         (topic_data topic_data' : TopicIn) (user user' : User)
         (st : Store) (status : nat) (topic : Topic) (st' : Store)
         (rs : list Request),
    reachable slugify lower st ->
    create_topics slugify lower rnd topic_data user st
    = (Respond status topic, st') ->
    lower (ti_name topic_data') = lower (ti_name topic_data) ->
    let later := run slugify lower rs st' in
    exists topic',
      create_topics slugify lower rnd' topic_data' user' later
      = (Respond HTTP_201_CREATED topic', later)
      /\ In topic' (topics later)
      /\ topic_id topic' = topic_id topic
      /\ topic_name topic' = topic_name topic
      /\ topic_name topic' = lower (ti_name topic_data)
      /\ topic_slug topic' = topic_slug topic.
Proof.
  intros slugify lower rnd rnd' td td' user user' st status topic st' rs
         Hreach Hrun Hname later.
  assert (Hwf' : well_formed st').
  { change st' with (snd (Respond status topic, st')). rewrite <- Hrun.
    apply create_topics_well_formed.
    apply (reachable_well_formed slugify lower). exact Hreach. }
  destruct (create_topics_leaves_the_topic _ _ _ _ _ _ _ _ _ Hrun)
    as (topic' & Hfind & Hsame).
  destruct (run_keeps_topics slugify lower rs st' Hwf') as (more & Hmore).
  fold later in Hmore.
  assert (Hlater : List.find
                     (fun t => topic_name t =? lower (ti_name td'))
                     (topics later) = Some topic').
  { rewrite Hname, Hmore. apply find_app_some. exact Hfind. }
  exists topic'. split; [apply create_topics_existing; exact Hlater |].
  split; [| exact Hsame].
  apply find_some in Hlater. tauto.
Qed.

(** Alice creates "News"; after a post and another topic, Bob asks for
    "NEWS" and gets Alice's topic. *)
Lemma create_topics_again_returns_the_topic_witness :
  exists topic' later,
    create_topics slugify_ascii lower_ascii sample_rand (mkTopicIn "NEWS")
                  bob later
    = (Respond HTTP_201_CREATED topic', later)
    /\ List.length (topics later) = 2
    /\ topic_slug topic' = Some "news"
    /\ topic_user_id topic' = Some 1.
Proof.
  destruct (create_topics_again_returns_the_topic
              slugify_ascii lower_ascii sample_rand sample_rand
              (mkTopicIn "News") (mkTopicIn "NEWS") alice bob
              (run slugify_ascii lower_ascii [ChangeUsers [alice; bob]]
                   (initial 0))
              _ _ _ later_requests
              (ex_intro _ 0 (ex_intro _ [ChangeUsers [alice; bob]] eq_refl))
              eq_refl eq_refl)
    as (topic' & Hrun & _).
  eexists. eexists. split; [exact Hrun |].
  vm_compute in Hrun. injection Hrun as <-.
  split; [reflexivity |]. split; reflexivity.
Defined.

(** ** What a creation writes *)

(** A creation that answers with a post, on a well-formed store: the
    store gains that post at its end and nothing else changes. *)
Lemma create_posts_appends (slugify : string -> string)
      (rnd : nat -> string) (placeholder : string) (post_data : PostCreate)
      (user : User) (st : Store) (status : nat) (post : Post) (st' : Store) :
  well_formed st ->
  create_posts slugify rnd placeholder post_data user st
  = (Respond status post, st') ->
  status = HTTP_201_CREATED
  /\ post = set_slug (slug post)
                     (draft_post placeholder post_data user st (next_id st))
  /\ st' = mkStore (users st) (topics st) (posts st ++ [post])
                   (S (next_id st))
  /\ ~ In (slug post) (map slug (posts st))
  /\ well_formed st'.
Proof.
  intros Hwf Hrun.
  destruct (create_posts_responds _ _ _ _ _ _ _ _ _ Hrun)
    as (new_slug & Hcreate & Hr & Hpost).
  cbn zeta in Hcreate, Hr, Hpost.
  destruct (create_posts_inserts slugify rnd _ _ _ _ _ _ Hcreate)
    as (_ & _ & Heq).
  cbn zeta in Heq. rewrite Hr in Heq. rewrite Heq in Hrun.
  injection Hrun as Hstatus _.
  destruct (slug_loop_success _ _ _ _ _ _ Hr) as (n & _ & _ & _ & Hp).
  assert (Hfree : ~ In new_slug (map slug (posts st))).
  { unfold Posts.update_slug in Hp. cbn [posts] in Hp.
    destruct (Posts.slug_taken _ _ _) eqn:Hfree in Hp; [discriminate |].
    eapply posts_slug_free; [apply (wf_post_ids Hwf) | exact Hfree]. }
  destruct (update_slug_of_last new_slug st st'
              (draft_post placeholder post_data user st (next_id st))
              Hwf eq_refl Hp)
    as (Hst & Hwf').
  subst post. cbn [slug set_slug].
  split; [symmetry; exact Hstatus |]. split; [reflexivity |].
  split; [exact Hst |]. split; [exact Hfree | exact Hwf'].
Qed.

(** X3.  A post that is created is stored with what the request and the
    requester give: the author is the user, title, description, cover
    image and publication time are those of the request, and the topics
    are the stored topics whose slug the request names.  The store gains
    exactly this post, after the posts it had; topics and users are as
    before. *)
Theorem create_posts_stores_the_request :
  forall (slugify lower : string -> string) (rnd : nat -> string)
         (placeholder : string) (post_data : PostCreate) (user : User)
         (st : Store) (status : nat) (post : Post) (st' : Store),
    reachable slugify lower st ->
    create_posts slugify rnd placeholder post_data user st
    = (Respond status post, st') ->
    status = HTTP_201_CREATED
    /\ posts st' = (posts st ++ [post])%list
    /\ topics st' = topics st
    /\ users st' = users st
    /\ author_id post = user_id user
    /\ title post = pc_title post_data
    /\ description post = pc_description post_data
    /\ cover_image post = pc_cover_image post_data
    /\ publish_at post = pc_publish_at post_data
    /\ (forall i, In i (topic_ids post) <->
                  exists t s, In t (topics st) /\ topic_id t = i
                              /\ topic_slug t = Some s
                              /\ In s (pc_topics post_data))
    /\ ~ In (post_id post) (map post_id (posts st)).
Proof.
  intros slugify lower rnd placeholder post_data user st status post st'
         Hreach Hrun.
  pose proof (reachable_well_formed slugify lower st Hreach) as Hwf.
  destruct (create_posts_appends _ _ _ _ _ _ _ _ _ Hwf Hrun)
    as (Hstatus & Hpost & Hst & _ & _).
  split; [exact Hstatus |]. rewrite Hst. cbn [posts topics users].
  do 3 (split; [reflexivity |]).
  rewrite Hpost. cbn [set_slug draft_post author_id title description
                      cover_image publish_at topic_ids post_id].
  do 5 (split; [reflexivity |]). split.
  - intros i. unfold resolve_topics, Topics.find.
    rewrite in_map_iff. split.
    + intros (t & Hid & Hin). apply filter_In in Hin.
      destruct Hin as (Hin & Hm).
      destruct (topic_slug t) as [s |] eqn:Hs; [| discriminate].
      exists t, s. split; [exact Hin |]. split; [exact Hid |].
      split; [exact Hs |].
      unfold mem_string in Hm. apply existsb_exists in Hm.
      destruct Hm as (x & Hx & Heq). apply String.eqb_eq in Heq.
      subst x. exact Hx.
    + intros (t & s & Hin & Hid & Hs & Hmem).
      exists t. split; [exact Hid |]. apply filter_In.
      split; [exact Hin |]. rewrite Hs.
      unfold mem_string. apply existsb_exists.
      exists s. split; [exact Hmem | apply String.eqb_refl].
  - apply fresh_key. apply (wf_post_ids Hwf).
Qed.

Lemma create_posts_stores_the_request_witness :
  exists post st',
    create_posts slugify_ascii sample_rand "65f0c2" hello_data bob
                 (run slugify_ascii lower_ascii hello_requests (initial 0))
    = (Respond HTTP_201_CREATED post, st')
    /\ List.length (posts st') = 2
    /\ author_id post = 2
    /\ slug post = "hello-kk".
Proof.
  destruct (create_posts_stores_the_request
              slugify_ascii lower_ascii sample_rand "65f0c2" hello_data bob
              (run slugify_ascii lower_ascii hello_requests (initial 0)) _ _ _
              (ex_intro _ 0 (ex_intro _ hello_requests eq_refl)) eq_refl)
    as (_ & Hposts & _ & _ & Hauthor & _).
  eexists. eexists. split; [reflexivity |].
  split; [rewrite Hposts; reflexivity |].
  split; [exact Hauthor | reflexivity].
Defined.

(** ** Which slug a post gets *)

Lemma slug_not_taken (except : option ObjectId) (s : string)
      (l : list Post) :
  ~ In s (map slug l) -> Posts.slug_taken except s l = false.
Proof.
  intros Hnotin. unfold Posts.slug_taken.
  destruct (existsb _ l) eqn:Hex; [| reflexivity].
  apply existsb_exists in Hex. destruct Hex as (p & Hp & Hc).
  apply andb_true_iff in Hc. destruct Hc as (Hs & _).
  apply String.eqb_eq in Hs. exfalso. apply Hnotin.
  rewrite <- Hs. apply in_map. exact Hp.
Qed.

(** The document that is being given its slug does not stand in its own
    way. *)
Lemma slug_free_for_last (s : string) (l : list Post) (x : Post) :
  ~ In s (map slug l) ->
  Posts.slug_taken (Some (post_id x)) s (l ++ [x]) = false.
Proof.
  intros Hnotin. unfold Posts.slug_taken. rewrite existsb_app.
  fold (Posts.slug_taken (Some (post_id x)) s l).
  rewrite (slug_not_taken _ _ _ Hnotin). cbn.
  rewrite Nat.eqb_refl. cbn. rewrite andb_false_r. reflexivity.
Qed.

(** X4.  When no stored post has the slugified title as its slug (and
    the placeholder is not in use either), the post is created at the
    first attempt, with a single write, and its slug is the slugified
    title with no suffix. *)
Theorem create_posts_plain_slug :
  forall (slugify : string -> string) (rnd : nat -> string)
         (placeholder : string) (post_data : PostCreate) (user : User)
         (st : Store),
    ~ In placeholder (map slug (posts st)) ->
    ~ In (slugify (pc_title post_data)) (map slug (posts st)) ->
    exists post st',
      create_posts slugify rnd placeholder post_data user st
      = (Respond HTTP_201_CREATED post, st')
      /\ slug post = slugify (pc_title post_data)
      /\ In post (posts st')
      /\ attempts
           (slug_loop (Posts.update_slug (next_id st)) rnd
              (slugify (pc_title post_data)) attempt_range
              (mkStore (users st) (topics st)
                 (posts st
                  ++ [draft_post placeholder post_data user st (next_id st)])
                 (S (next_id st))))
         = [slugify (pc_title post_data)].
Proof.
  intros slugify rnd placeholder post_data user st Hph Hslug.
  set (post0 := draft_post placeholder post_data user st (next_id st)).
  set (st1 := mkStore (users st) (topics st) (posts st ++ [post0])
                      (S (next_id st))).
  set (s := slugify (pc_title post_data)) in *.
  assert (Hcreate : Posts.create (draft_post placeholder post_data user st) st
                    = Some (post0, st1)).
  { unfold Posts.create. cbn [draft_post slug].
    rewrite (slug_not_taken None _ _ Hph). reflexivity. }
  destruct (Posts.update_slug (next_id st) s st1) as [st2 |] eqn:Hup.
  - assert (Hloop : slug_loop (Posts.update_slug (next_id st)) rnd s
                              attempt_range st1
                    = mkAllocation [s] (Some (s, st2))).
    { unfold attempt_range. cbn [seq slug_loop].
      rewrite candidate_first, Hup. reflexivity. }
    destruct (create_posts_inserts slugify rnd _ _ _ _ _ _ Hcreate)
      as (_ & _ & Heq).
    cbn zeta in Heq. fold s in Heq. rewrite Hloop in Heq. cbn in Heq.
    exists (set_slug s post0), st2.
    split; [exact Heq |]. split; [reflexivity |].
    split; [| rewrite Hloop; reflexivity].
    apply (update_slug_stores (next_id st) s st1 st2 post0 Hup);
      [| reflexivity].
    cbn. apply in_or_app. right. left. reflexivity.
  - exfalso. unfold Posts.update_slug in Hup. cbn [posts st1] in Hup.
    change (next_id st) with (post_id post0) in Hup.
    rewrite (slug_free_for_last s (posts st) post0 Hslug) in Hup.
    discriminate.
Qed.

Lemma create_posts_plain_slug_witness :
  exists post st',
    create_posts slugify_ascii sample_rand "65f0c1" hello_data alice
                 empty_store
    = (Respond HTTP_201_CREATED post, st')
    /\ slug post = "hello".
Proof.
  destruct (create_posts_plain_slug slugify_ascii sample_rand "65f0c1"
              hello_data alice empty_store)
    as (post & st' & Hrun & Hslug & _).
  - cbn. tauto.
  - cbn. tauto.
  - exists post, st'. split; [exact Hrun | exact Hslug].
Defined.

(** X5.  Two posts never share a slug.  When a second post is created
    after a first one, it gets another identifier and another slug, and
    both posts are in the store; when its title slugifies to the slug of
    the first post, its slug is that slug followed by ["-"] and the
    random suffix of one of the attempts 2 to 9. *)
Theorem create_posts_twice_distinct_slugs :
  forall (slugify lower : string -> string) (rnd rnd' : nat -> string)
         (placeholder placeholder' : string)
         (post_data post_data' : PostCreate) (user user' : User)
         (st : Store) (status1 : nat) (p1 : Post) (st1 : Store)
         (status2 : nat) (p2 : Post) (st2 : Store),
    reachable slugify lower st ->
    create_posts slugify rnd placeholder post_data user st
    = (Respond status1 p1, st1) ->
    create_posts slugify rnd' placeholder' post_data' user' st1
    = (Respond status2 p2, st2) ->
    slug p2 <> slug p1
    /\ post_id p2 <> post_id p1
    /\ In p1 (posts st2) /\ In p2 (posts st2)
    /\ (slugify (pc_title post_data') = slug p1 ->
        exists i, 2 <= i <= 9 /\ slug p2 = slug p1 ++ "-" ++ rnd' i).
Proof.
  intros slugify lower rnd rnd' ph ph' pd pd' user user' st status1 p1 st1
         status2 p2 st2 Hreach Hrun1 Hrun2.
  pose proof (reachable_well_formed slugify lower st Hreach) as Hwf.
  destruct (create_posts_appends _ _ _ _ _ _ _ _ _ Hwf Hrun1)
    as (_ & Hp1 & Hst1 & _ & Hwf1).
  destruct (create_posts_appends _ _ _ _ _ _ _ _ _ Hwf1 Hrun2)
    as (_ & Hp2 & Hst2 & Hfree2 & _).
  assert (Hin1 : In p1 (posts st1)).
  { rewrite Hst1. cbn. apply in_or_app. right. left. reflexivity. }
  assert (Hne : slug p2 <> slug p1).
  { intros Heq. apply Hfree2. rewrite Heq. apply in_map. exact Hin1. }
  split; [exact Hne |]. split; [| split; [| split]].
  - rewrite Hp1, Hp2. cbn. rewrite Hst1. cbn. lia.
  - rewrite Hst2. cbn. apply in_or_app. left. exact Hin1.
  - rewrite Hst2. cbn. apply in_or_app. right. left. reflexivity.
  - intros Hsame.
    destruct (create_posts_first_success _ _ _ _ _ _ _ _ _ Hrun2)
      as (n & (Hn & _) & _ & Hslug & _).
    rewrite Hsame in Hslug.
    destruct (Nat.eq_dec n 1) as [-> | Hn1].
    + rewrite candidate_first in Hslug. contradiction.
    + exists n. split; [lia |]. rewrite Hslug.
      apply candidate_later. lia.
Qed.

Lemma create_posts_twice_distinct_slugs_witness :
  exists p1 st1 p2 st2,
    create_posts slugify_ascii sample_rand "65f0c1" hello_data alice
                 (run slugify_ascii lower_ascii [ChangeUsers [alice; bob]] (initial 0))
    = (Respond HTTP_201_CREATED p1, st1)
    /\ create_posts slugify_ascii sample_rand "65f0c1" hello_data bob st1
       = (Respond HTTP_201_CREATED p2, st2)
    /\ slug p1 = "hello" /\ slug p2 = "hello-kk" /\ slug p2 <> slug p1.
Proof.
  do 4 eexists.
  split; [reflexivity |]. split; [reflexivity |].
  split; [reflexivity |]. split; [reflexivity |].
  apply (create_posts_twice_distinct_slugs
           slugify_ascii lower_ascii sample_rand sample_rand "65f0c1" "65f0c1"
           hello_data hello_data alice bob
           (run slugify_ascii lower_ascii [ChangeUsers [alice; bob]] (initial 0))
           _ _ _ _ _ _
           (ex_intro _ 0 (ex_intro _ [ChangeUsers [alice; bob]] eq_refl))
           eq_refl eq_refl).
Defined.

(** ** A creation that fails *)

(** X6.  A creation that ends in a raised error has written nothing that
    stays: posts, topics and users are exactly those of before the
    request, for a post as for a topic, and the error is the one that
    names the title (the name). *)
Theorem failed_creation_restores_the_store :
  forall (slugify lower : string -> string) (st : Store),
    reachable slugify lower st ->
    (forall rnd placeholder post_data user e st',
        create_posts slugify rnd placeholder post_data user st
        = (Raise e, st') ->
        e = title_error
        /\ posts st' = posts st /\ topics st' = topics st
        /\ users st' = users st)
    /\ (forall rnd topic_data user e st',
           create_topics slugify lower rnd topic_data user st = (Raise e, st') ->
           e = name_error
           /\ posts st' = posts st /\ topics st' = topics st
           /\ users st' = users st).
Proof.
  intros slugify lower st Hreach.
  pose proof (reachable_well_formed slugify lower st Hreach) as Hwf.
  split.
  - intros rnd placeholder post_data user e st' Hrun.
    destruct (Posts.create (draft_post placeholder post_data user st) st)
      as [[post0 st1] |] eqn:Hcreate.
    + destruct (create_posts_inserts slugify rnd _ _ _ _ _ _ Hcreate)
        as (Hpost & Hst & Heq).
      rewrite Heq in Hrun.
      destruct (outcome _) as [[new_slug st2] |]; [discriminate |].
      injection Hrun as <- <-. subst st1.
      destruct (delete_last_post st post0 Hwf) as (H1 & H2 & _).
      * rewrite Hpost. reflexivity.
      * cbn zeta in H1, H2. auto.
    + unfold create_posts in Hrun. rewrite Hcreate in Hrun. discriminate.
  - intros rnd topic_data user e st' Hrun.
    destruct (List.find (fun t => topic_name t =? lower (ti_name topic_data))
                        (topics st)) as [t |] eqn:Hfind.
    + rewrite (create_topics_existing slugify lower rnd _ _ _ _ Hfind) in Hrun.
      discriminate.
    + rewrite (create_topics_inserts slugify lower rnd _ _ _ Hfind) in Hrun.
      cbn zeta in Hrun.
      destruct (outcome _) as [[new_slug st2] |]; [discriminate |].
      injection Hrun as <- <-.
      destruct (delete_last_topic st
                  (mkTopic (next_id st) (lower (ti_name topic_data))
                           None None) Hwf eq_refl)
        as (H1 & H2 & _).
      cbn zeta in H1, H2. auto.
Qed.

(** After nine posts titled "Hello", a tenth one is refused and the
    store still has its nine posts. *)
Lemma failed_creation_restores_the_store_witness :
  exists st',
    create_posts slugify_ascii sample_rand "65f0c1" hello_data alice
                 (run slugify_ascii lower_ascii crowded_requests (initial 0))
    = (Raise title_error, st')
    /\ posts st' = posts (run slugify_ascii lower_ascii crowded_requests (initial 0))
    /\ List.length (posts st') = 9.
Proof.
  set (st := run slugify_ascii lower_ascii crowded_requests (initial 0)).
  destruct (create_posts slugify_ascii sample_rand "65f0c1" hello_data alice
                         st) as [resp st'] eqn:Hrun.
  assert (Hresp : resp = Raise title_error).
  { apply (f_equal fst) in Hrun. cbn [fst] in Hrun. rewrite <- Hrun.
    vm_compute. reflexivity. }
  subst resp. exists st'. split; [reflexivity |].
  destruct (failed_creation_restores_the_store slugify_ascii lower_ascii st
              (ex_intro _ 0 (ex_intro _ crowded_requests eq_refl)))
    as (Hposts & _).
  destruct (Hposts sample_rand "65f0c1" hello_data alice _ _ Hrun)
    as (_ & H & _).
  split; [exact H |]. rewrite H. vm_compute. reflexivity.
Defined.

(** ** Reading a post by its slug *)

Lemma find_all_false {A : Type} (f : A -> bool) (l : list A) :
  (forall x, In x l -> f x = false) -> List.find f l = None.
Proof.
  induction l as [| x l IH]; intros H; [reflexivity |].
  cbn. rewrite (H x) by (left; reflexivity).
  apply IH. intros y Hy. apply H. right. exact Hy.
Qed.

(** With distinct slugs the lookup by slug finds the post that has the
    slug, if the lookup accepts it. *)
Lemma find_by_slug (extra : Post -> bool) (l : list Post) (p : Post) :
  NoDup (map slug l) -> In p l -> extra p = true ->
  List.find (fun q => (slug q =? slug p) && extra q) l = Some p.
Proof.
  intros Hnd Hin Hextra.
  destruct (List.find _ l) as [q |] eqn:Hfind.
  - apply find_some in Hfind. destruct Hfind as (Hq & Hf).
    apply andb_true_iff in Hf. destruct Hf as (Hs & _).
    apply String.eqb_eq in Hs. f_equal.
    apply (NoDup_map_eq slug l); auto.
  - pose proof (find_none _ _ Hfind p Hin) as Hf. cbn in Hf.
    rewrite String.eqb_refl, Hextra in Hf. discriminate.
Qed.

Lemma reachable_step (slugify lower : string -> string) (r : Request)
      (st : Store) :
  reachable slugify lower st -> reachable slugify lower (handle slugify lower r st).
Proof.
  intros (n & rs & ->). exists n, (rs ++ [r])%list.
  unfold run. rewrite fold_left_app. reflexivity.
Qed.

(** The answer of the detail read for a post [p] and its author [u]. *)
Lemma get_post_details_of (now : datetime) (st : Store) (p : Post)
      (u : User) :
  well_formed st ->
  In p (posts st) ->
  published now p = true ->
  get_user (author_id p) st = Some u ->
  get_post_details now (slug p) st
  = Respond HTTP_200_OK
      (mkPostDetailsOut (post_id p) (Some u) (title p) (short_description p)
         (cover_image p) (publish_at p) (description p) []).
Proof.
  intros Hwf Hin Hpub Huser. unfold get_post_details, Posts.get.
  rewrite (find_by_slug (published now) (posts st) p
             (wf_post_slugs_distinct Hwf) Hin Hpub).
  rewrite Huser. reflexivity.
Qed.

(** X7.  In a reachable store every published post whose author exists
    can be read by its slug: the detail read answers 200 with the
    identifier, title, short description, description, cover image and
    publication time of that very post, and with its author. *)
Theorem get_post_details_returns_the_post :
  forall (slugify lower : string -> string) (now : datetime) (st : Store)
         (p : Post) (u : User) (t : datetime),
    reachable slugify lower st ->
    In p (posts st) ->
    publish_at p = Some t -> (t < now)%Z ->
    get_user (author_id p) st = Some u ->
    exists d,
      get_post_details now (slug p) st = Respond HTTP_200_OK d
      /\ do_id d = post_id p
      /\ do_author d = Some u
      /\ do_title d = title p
      /\ do_short_description d = short_description p
      /\ do_description d = description p
      /\ do_cover_image d = cover_image p
      /\ do_publish_at d = Some t.
Proof.
  intros slugify lower now st p u t Hreach Hin Ht Hlt Huser.
  pose proof (reachable_well_formed slugify lower st Hreach) as Hwf.
  assert (Hpub : published now p = true).
  { apply published_spec. exists t. auto. }
  eexists. split; [apply get_post_details_of; eassumption |].
  cbn. do 6 (split; [reflexivity |]). exact Ht.
Qed.

Lemma get_post_details_returns_the_post_witness :
  exists d,
    get_post_details 10%Z "hello"
                     (run slugify_ascii lower_ascii hello_requests (initial 0))
    = Respond HTTP_200_OK d
    /\ do_title d = "Hello"
    /\ do_author d = Some alice.
Proof.
  destruct (get_post_details_returns_the_post slugify_ascii lower_ascii 10%Z
              (run slugify_ascii lower_ascii hello_requests (initial 0))
              (mkPost 0 1 "hello" "Hello" (Some "long text")
                      (Some "long text") None (Some 5%Z) [])
              alice 5%Z
              (ex_intro _ 0 (ex_intro _ hello_requests eq_refl)))
    as (d & Hget & _ & Hauthor & Htitle & _).
  - vm_compute. left. reflexivity.
  - reflexivity.
  - reflexivity.
  - reflexivity.
  - exists d. split; [exact Hget |]. split; [exact Htitle | exact Hauthor].
Defined.

(** ** Creating a post and reading it *)

(** X8.  A post that was just created can be read back under the slug
    the creation returned, from any time after its publication time
    on: the detail read answers 200 with the identifier, title,
    description and short description of the created post and with the
    requester as its author.  Before that time, and always when the
    request gave no publication time, the detail read raises its
    not-found error and no listing contains the post. *)
Theorem created_post_reads_back :
  forall (slugify lower : string -> string) (rnd : nat -> string)
         (placeholder : string) (post_data : PostCreate) (user u : User)
         (st : Store) (status : nat) (post : Post) (st' : Store),
    reachable slugify lower st ->
    get_user (user_id user) st = Some u ->
    create_posts slugify rnd placeholder post_data user st
    = (Respond status post, st') ->
    (forall now t,
        pc_publish_at post_data = Some t -> (t < now)%Z ->
        exists d,
          get_post_details now (slug post) st' = Respond HTTP_200_OK d
          /\ do_id d = post_id post
          /\ do_author d = Some u
          /\ do_title d = pc_title post_data
          /\ do_description d = pc_description post_data
          /\ do_short_description d = short_description post)
    /\ (forall now,
           pc_publish_at post_data = None
           \/ (exists t, pc_publish_at post_data = Some t /\ (now <= t)%Z) ->
           get_post_details now (slug post) st' = Raise not_found_error
           /\ forall get_offset page limit q topics author l,
               get_posts get_offset now page limit q topics author st'
               = Respond HTTP_200_OK l ->
               ~ In (post_id post) (map lo_id (results l))).
Proof.
  intros slugify lower rnd placeholder post_data user u st status post st'
         Hreach Huser Hrun.
  pose proof (reachable_well_formed slugify lower st Hreach) as Hwf.
  destruct (create_posts_appends _ _ _ _ _ _ _ _ _ Hwf Hrun)
    as (_ & Hpost & Hst & _ & Hwf').
  assert (Hin : In post (posts st')).
  { rewrite Hst. cbn. apply in_or_app. right. left. reflexivity. }
  assert (Hauthor : author_id post = user_id user)
    by (rewrite Hpost; reflexivity).
  assert (Hpub : publish_at post = pc_publish_at post_data)
    by (rewrite Hpost; reflexivity).
  assert (Husers : users st' = users st) by (rewrite Hst; reflexivity).
  split.
  - intros now t Ht Hlt.
    assert (Hp : published now post = true).
    { apply published_spec. exists t. rewrite Hpub. auto. }
    assert (Hu : get_user (author_id post) st' = Some u).
    { unfold get_user. rewrite Husers, Hauthor. exact Huser. }
    eexists. split; [apply (get_post_details_of now st' post u); assumption |].
    cbn. do 2 (split; [reflexivity |]).
    split; [rewrite Hpost; reflexivity |].
    split; [rewrite Hpost; reflexivity | reflexivity].
  - intros now Hnot.
    assert (Hp : published now post = false).
    { destruct (published now post) eqn:Hp; [| reflexivity].
      apply published_spec in Hp. destruct Hp as (t & Ht & Hlt).
      rewrite Hpub in Ht.
      destruct Hnot as [Hnone | (t' & Ht' & Hle)]; [congruence |].
      assert (t' = t) by congruence. lia. }
    split.
    + unfold get_post_details, Posts.get.
      rewrite find_all_false; [reflexivity |].
      intros q Hq. apply andb_false_iff.
      destruct (String.eqb_spec (slug q) (slug post)) as [Heq | Hne];
        [right | left; reflexivity].
      replace q with post; [exact Hp |].
      apply (NoDup_map_eq slug (posts st')); auto.
      apply (wf_post_slugs_distinct Hwf').
    + intros get_offset page limit q topics author l Hget Hlisted.
      unfold get_posts in Hget. injection Hget as <-.
      cbn [results] in Hlisted. rewrite map_map in Hlisted.
      apply in_map_iff in Hlisted. destruct Hlisted as (p & Hid & Hp').
      cbn in Hid. apply paginate_incl in Hp'.
      unfold Posts.find in Hp'. apply filter_In in Hp'.
      destruct Hp' as (Hp' & Hf).
      assert (p = post).
      { apply (NoDup_map_eq post_id (posts st')); auto.
        apply (wf_post_ids_distinct Hwf'). }
      subst p. unfold list_filter in Hf. rewrite Hp in Hf. discriminate.
Qed.

(** Alice's draft "Notes" is stored under "notes" and is not found by
    the detail read. *)
Lemma created_post_reads_back_witness :
  exists post st',
    create_posts slugify_ascii sample_rand "65f0c2" draft_data alice
                 (run slugify_ascii lower_ascii hello_requests (initial 0))
    = (Respond HTTP_201_CREATED post, st')
    /\ slug post = "notes"
    /\ get_post_details 10%Z "notes" st' = Raise not_found_error.
Proof.
  eexists. eexists. split; [reflexivity |]. split; [reflexivity |].
  destruct (created_post_reads_back slugify_ascii lower_ascii sample_rand "65f0c2"
              draft_data alice alice
              (run slugify_ascii lower_ascii hello_requests (initial 0)) _ _ _
              (ex_intro _ 0 (ex_intro _ hello_requests eq_refl))
              eq_refl eq_refl)
    as (_ & Hdraft).
  destruct (Hdraft 10%Z (or_introl eq_refl)) as (Hget & _).
  exact Hget.
Defined.

(** ** The size of a page *)

Lemma paginate_length {A : Type} (offset limit : nat) (l : list A) :
  List.length (paginate offset limit l)
  = if (limit =? 0)%nat then List.length l - offset
    else Nat.min limit (List.length l - offset).
Proof.
  unfold paginate. destruct (limit =? 0)%nat.
  - apply length_skipn.
  - rewrite length_firstn, length_skipn. reflexivity.
Qed.

(** ** Visibility and time *)

(** X10.  Publication is monotone in time: a post that passes the
    filter of the reads at one time passes it at every later time, so
    the count of a listing never goes down while the store stays the
    same; and no post passes it at or before its own publication
    time. *)
Theorem visibility_is_monotone :
  forall (now later : datetime) (q : option string)
         (topics : list ObjectId) (author : option ObjectId),
    (now <= later)%Z ->
    (forall p, list_filter now q topics author p = true ->
               list_filter later q topics author p = true)
    /\ (forall get_offset page limit st l l',
           get_posts get_offset now page limit q topics author st
           = Respond HTTP_200_OK l ->
           get_posts get_offset later page limit q topics author st
           = Respond HTTP_200_OK l' ->
           count l <= count l')
    /\ (forall p t, publish_at p = Some t -> (now <= t)%Z ->
                    list_filter now q topics author p = false).
Proof.
  intros now later q topics author Hle.
  assert (Hmono : forall p, list_filter now q topics author p = true ->
                            list_filter later q topics author p = true).
  { intros p. rewrite !list_filter_spec. unfold visible.
    intros ((t & Ht & Hlt) & Hrest). split; [| exact Hrest].
    exists t. split; [exact Ht | lia]. }
  split; [exact Hmono |]. split.
  - intros get_offset page limit st l l' Hl Hl'.
    unfold get_posts in Hl, Hl'. injection Hl as <-. injection Hl' as <-.
    cbn [count]. unfold Posts.find.
    induction (posts st) as [| p ps IH]; cbn; [lia |].
    destruct (list_filter now q topics author p) eqn:Hp.
    + rewrite (Hmono p Hp). cbn. lia.
    + destruct (list_filter later q topics author p); cbn; lia.
  - intros p t Ht Hge. unfold list_filter, published. rewrite Ht.
    destruct (Z.ltb_spec t now) as [Hlt | _]; [lia | reflexivity].
Qed.

Lemma visibility_is_monotone_witness :
  list_filter 20%Z None [] None (hello_post 3 "hello" (Some 5%Z)) = true
  /\ list_filter 5%Z None [] None (hello_post 3 "hello" (Some 5%Z)) = false.
Proof.
  destruct (visibility_is_monotone 10%Z 20%Z None [] None) as (Hmono & _).
  - lia.
  - split; [apply Hmono; reflexivity | reflexivity].
Defined.

(** ** Updating a post and reading it *)

Lemma updated_post_idempotent (post : Post) (post_data : PostUpdate) :
  updated_post (updated_post post post_data) post_data
  = updated_post post post_data.
Proof.
  destruct (updated_post_keeps post post_data) as (Hid & Hau & Hslug & Htop).
  destruct (updated_post_fields post post_data) as (Ht & Hd & Hc & Hp & Hsd).
  destruct (updated_post_keeps (updated_post post post_data) post_data)
    as (Hid' & Hau' & Hslug' & Htop').
  destruct (updated_post_fields (updated_post post post_data) post_data)
    as (Ht' & Hd' & Hc' & Hp' & Hsd').
  cbn zeta in *.
  assert (Hm : forall (A : Type) (f : Sent A) (x : A),
             merge f (merge f x) = merge f x)
    by (intros A [| v] x; reflexivity).
  rewrite Ht, Hm in Ht'. rewrite Hd, Hm in Hd'.
  rewrite Hc, Hm in Hc'. rewrite Hp, Hm in Hp'.
  rewrite <- Hsd in Hsd'. rewrite <- Ht in Ht'. rewrite <- Hd in Hd'.
  rewrite <- Hc in Hc'. rewrite <- Hp in Hp'.
  rewrite Hid in Hid'. rewrite Hau in Hau'. rewrite Hslug in Hslug'.
  rewrite Htop, Hm in Htop'.
  rewrite <- Hid in Hid'. rewrite <- Hau in Hau'. rewrite <- Hslug in Hslug'.
  rewrite <- Htop in Htop'.
  destruct (updated_post (updated_post post post_data) post_data),
    (updated_post post post_data).
  cbn in *. congruence.
Qed.

(** X11.  When the author updates a post of a reachable store, the post
    found under the same slug afterwards has as its short description
    the one of the request when that is not empty; else the first 200
    characters of the description of the request when that is not
    empty; else what the request reads as its short description, which
    is nothing when the request does not send the field.  Every other
    post is in the store as it was, the number of posts is the same,
    and the topics and the users are untouched. *)
Theorem update_posts_short_description_and_frame :
  forall (slugify lower : string -> string) (slug0 : string)
         (post_data : PostUpdate) (user : User) (st : Store) (post : Post),
    reachable slugify lower st ->
    Posts.get (fun p => slug p =? slug0) st = Some post ->
    author_id post = user_id user ->
    exists st' doc,
      update_posts slug0 post_data user st
      = (Respond HTTP_200_OK "Post Updated", st')
      /\ Posts.get (fun p => slug p =? slug0) st' = Some doc
      /\ (forall s, read (pu_short_description post_data) = Some s ->
                    s <> "" -> short_description doc = Some s)
      /\ (truthy (read (pu_short_description post_data)) = false ->
          forall d, read (pu_description post_data) = Some d -> d <> "" ->
                    short_description doc = Some (prefix 200 d))
      /\ (truthy (read (pu_short_description post_data)) = false ->
          truthy (read (pu_description post_data)) = false ->
          short_description doc = read (pu_short_description post_data))
      /\ (forall p, In p (posts st) -> post_id p <> post_id post ->
                    In p (posts st'))
      /\ List.length (posts st') = List.length (posts st)
      /\ topics st' = topics st
      /\ users st' = users st.
Proof.
  intros slugify lower slug0 post_data user st post Hreach Hget Hauthor.
  pose proof (reachable_well_formed slugify lower st Hreach) as Hwf.
  destruct (update_posts_by_author slug0 post_data user st post
              (wf_post_ids_distinct Hwf) (wf_post_slugs_distinct Hwf)
              Hget Hauthor)
    as (st' & Hrun & Hposts & _ & _ & Husers & Htopics & _).
  destruct (update_posts_keeps_slug slug0 post_data user st post
              Hwf Hget Hauthor)
    as (st'' & Hrun' & _ & _ & Hget' & _).
  rewrite Hrun in Hrun'. injection Hrun' as <-.
  destruct (updated_post_fields post post_data)
    as (_ & _ & _ & _ & Hsd).
  exists st', (updated_post post post_data).
  split; [exact Hrun |]. split; [exact Hget' |].
  split; [| split; [| split; [| split; [| split; [| auto]]]]].
  - intros s Hs Hne. rewrite Hsd, Hs. cbn.
    destruct (String.eqb_spec s "") as [-> | _]; [congruence | reflexivity].
  - intros Hfalsy d Hde Hne. rewrite Hsd, Hfalsy, Hde. cbn.
    destruct (String.eqb_spec d "") as [-> | _]; [congruence | reflexivity].
  - intros Hfalsy Hfalsy'. rewrite Hsd, Hfalsy, Hfalsy'. reflexivity.
  - intros p Hin Hne. rewrite Hposts. apply in_map_iff. exists p.
    split; [| exact Hin].
    destruct (Nat.eqb_spec (post_id p) (post_id post)); [contradiction |].
    reflexivity.
  - rewrite Hposts. apply length_map.
Qed.

(** Alice sends a new description for her post "hello" and no short
    description: the short description becomes the start of the new
    text. *)
Lemma update_posts_short_description_and_frame_witness :
  exists st' doc,
    update_posts "hello" redescribe alice
                 (run slugify_ascii lower_ascii hello_requests (initial 0))
    = (Respond HTTP_200_OK "Post Updated", st')
    /\ Posts.get (fun p => slug p =? "hello") st' = Some doc
    /\ short_description doc = Some "new text".
Proof.
  destruct (update_posts_short_description_and_frame
              slugify_ascii lower_ascii "hello" redescribe
              alice (run slugify_ascii lower_ascii hello_requests (initial 0))
              _ (ex_intro _ 0 (ex_intro _ hello_requests eq_refl))
              eq_refl eq_refl)
    as (st' & doc & Hrun & Hget & _ & Hd & _).
  exists st', doc. split; [exact Hrun |]. split; [exact Hget |].
  apply (Hd eq_refl "new text" eq_refl). discriminate.
Defined.

Lemma store_eq (a b : Store) :
  users a = users b -> topics a = topics b -> posts a = posts b ->
  next_id a = next_id b -> a = b.
Proof.
  destruct a, b. cbn. intros -> -> -> ->. reflexivity.
Qed.

(** X12.  An update is idempotent: when the author sends the same
    request for the same slug a second time, the answer is the same and
    the store after the second request is the store after the first. *)
Theorem update_posts_is_idempotent :
  forall (slugify lower : string -> string) (slug0 : string)
         (post_data : PostUpdate) (user : User) (st : Store) (post : Post)
         (resp : Response string) (st1 : Store),
    reachable slugify lower st ->
    Posts.get (fun p => slug p =? slug0) st = Some post ->
    author_id post = user_id user ->
    update_posts slug0 post_data user st = (resp, st1) ->
    update_posts slug0 post_data user st1 = (resp, st1)
    /\ resp = Respond HTTP_200_OK "Post Updated".
Proof.
  intros slugify lower slug0 post_data user st post resp st1
         Hreach Hget Hauthor Hrun.
  pose proof (reachable_well_formed slugify lower st Hreach) as Hwf.
  destruct (update_posts_keeps_slug slug0 post_data user st post
              Hwf Hget Hauthor)
    as (st' & Hrun' & _ & _ & Hget1 & _).
  rewrite Hrun in Hrun'. injection Hrun' as -> <-.
  destruct (update_posts_by_author slug0 post_data user st post
              (wf_post_ids_distinct Hwf) (wf_post_slugs_distinct Hwf)
              Hget Hauthor)
    as (st' & Hrun' & Hposts1 & _).
  rewrite Hrun in Hrun'. injection Hrun' as <-.
  assert (Hwf1 : well_formed st1).
  { change st1 with (snd (Respond HTTP_200_OK "Post Updated", st1)).
    rewrite <- Hrun. apply update_posts_well_formed. exact Hwf. }
  destruct (updated_post_keeps post post_data) as (Hid & Hau & _).
  destruct (update_posts_by_author slug0 post_data user st1
              (updated_post post post_data)
              (wf_post_ids_distinct Hwf1) (wf_post_slugs_distinct Hwf1)
              Hget1 (eq_trans Hau Hauthor))
    as (st2 & Hrun2 & Hposts2 & _ & _ & Husers & Htopics & Hnext).
  split; [| reflexivity].
  rewrite Hrun2. f_equal. apply store_eq; auto.
  rewrite Hposts2, updated_post_idempotent, Hid, Hposts1, map_map.
  apply map_ext. intros p.
  destruct (Nat.eqb_spec (post_id p) (post_id post)) as [Heq | Hne].
  - rewrite Hid, Nat.eqb_refl. reflexivity.
  - apply Nat.eqb_neq in Hne. rewrite Hne. reflexivity.
Qed.

Lemma update_posts_is_idempotent_witness :
  exists st1,
    update_posts "hello" retitle alice
                 (run slugify_ascii lower_ascii hello_requests (initial 0))
    = (Respond HTTP_200_OK "Post Updated", st1)
    /\ update_posts "hello" retitle alice st1
       = (Respond HTTP_200_OK "Post Updated", st1).
Proof.
  eexists. split; [reflexivity |].
  apply (update_posts_is_idempotent slugify_ascii lower_ascii "hello" retitle alice
           (run slugify_ascii lower_ascii hello_requests (initial 0)) _ _ _
           (ex_intro _ 0 (ex_intro _ hello_requests eq_refl))
           eq_refl eq_refl eq_refl).
Defined.

(** ** A slug that no post has *)

(** X13.  When no post has the slug of the request, an update and a
    deletion both raise the error of the lookup, whose code is
    [OBJECT_NOT_FOUND], whoever asks, and the store is the one before
    the request. *)
Theorem unknown_slug_changes_nothing :
  forall (slug0 : string) (post_data : PostUpdate) (user : User)
         (st : Store),
    (forall p, In p (posts st) -> slug p <> slug0) ->
    exists e,
      update_posts slug0 post_data user st = (Raise e, st)
      /\ delete_post slug0 user st = (Raise e, st)
      /\ code e = OBJECT_NOT_FOUND.
Proof.
  intros slug0 post_data user st Hnone.
  assert (Hget : Posts.get (fun p => slug p =? slug0) st = None).
  { unfold Posts.get. apply find_all_false. intros p Hp.
    apply String.eqb_neq. apply Hnone. exact Hp. }
  unfold update_posts, delete_post, get_object_or_404. rewrite Hget.
  eexists. split; [reflexivity |]. split; reflexivity.
Qed.

Lemma unknown_slug_changes_nothing_witness :
  exists e,
    update_posts "missing" retitle alice small_store = (Raise e, small_store)
    /\ delete_post "missing" alice small_store = (Raise e, small_store)
    /\ code e = OBJECT_NOT_FOUND.
Proof.
  apply unknown_slug_changes_nothing.
  intros p Hin. cbn in Hin.
  destruct Hin as [<- | [<- | [<- | []]]]; discriminate.
Defined.

(** ** Listing topics *)

(** X14.  Without a query (or with an empty one) [get_topics] answers
    200 with the page of all topics and the number of all topics,
    whatever the patterns mean.  With a query that compiles, the count
    is the number of topics whose name matches, every listed topic is a
    stored topic whose name matches, and the page is not longer than a
    limit that is not 0.  With a query that does not compile, the
    exception escapes the handler. *)
Theorem get_topics_lists_matching_topics :
  forall (compile : string -> option (string -> bool))
         (get_offset : nat -> nat -> nat) (page limit : nat) (st : Store),
    (forall q, truthy q = false ->
               get_topics compile get_offset page limit q st
               = Respond HTTP_200_OK
                   (mkTopicListing (List.length (topics st))
                      (paginate (get_offset page limit) limit (topics st))))
    /\ (forall pattern matches,
           pattern <> "" -> compile pattern = Some matches ->
           exists l,
             get_topics compile get_offset page limit (Some pattern) st
             = Respond HTTP_200_OK l
             /\ topic_count l
                = List.length
                    (filter (fun t => matches (topic_name t)) (topics st))
             /\ (forall t, In t (topic_results l) ->
                           In t (topics st)
                           /\ matches (topic_name t) = true)
             /\ List.length (topic_results l) <= topic_count l
             /\ (limit <> 0 -> List.length (topic_results l) <= limit))
    /\ (forall pattern,
           pattern <> "" -> compile pattern = None ->
           get_topics compile get_offset page limit (Some pattern) st
           = Uncaught).
Proof.
  intros compile get_offset page limit st.
  assert (Hall : filter (fun _ : Topic => true) (topics st) = topics st).
  { induction (topics st) as [| t ts IH]; cbn; [| rewrite IH]; reflexivity. }
  split; [| split].
  - intros q Hq. unfold get_topics. rewrite Hq. unfold Topics.find.
    rewrite Hall. reflexivity.
  - intros pattern matches Hne Hc. unfold get_topics. cbn [truthy].
    apply String.eqb_neq in Hne. rewrite Hne, Hc. cbn [negb].
    eexists. split; [reflexivity |]. cbn [topic_count topic_results].
    unfold Topics.find.
    set (matching := filter (fun t => matches (topic_name t)) (topics st)).
    split; [reflexivity |]. split; [| split].
    + intros t Ht. apply paginate_incl in Ht. apply filter_In in Ht.
      exact Ht.
    + rewrite paginate_length. destruct (limit =? 0)%nat; lia.
    + intros Hlimit. rewrite paginate_length.
      destruct (Nat.eqb_spec limit 0) as [-> | _]; [congruence | lia].
  - intros pattern Hne Hc. unfold get_topics. cbn [truthy].
    apply String.eqb_neq in Hne. rewrite Hne, Hc. reflexivity.
Qed.

(** With a search that reads its pattern as a plain first letter, and
    refuses an open parenthesis. *)
Lemma get_topics_lists_matching_topics_witness :
  get_topics (fun q => if q =? "(" then None
                       else Some (fun name => prefix 1 name =? q))
             get_offset_pages 1 20 (Some "(") crowded_topics
  = Uncaught
  /\ get_topics (fun q => if q =? "(" then None
                          else Some (fun name => prefix 1 name =? q))
                get_offset_pages 1 20 None crowded_topics
     = Respond HTTP_200_OK (mkTopicListing 9 (topics crowded_topics)).
Proof.
  destruct (get_topics_lists_matching_topics
              (fun q => if q =? "(" then None
                        else Some (fun name => prefix 1 name =? q))
              get_offset_pages 1 20 crowded_topics)
    as (Hnone & _ & Hbad).
  split.
  - apply Hbad; [discriminate | reflexivity].
  - rewrite Hnone; reflexivity.
Defined.

(** ** What no request takes away *)

(** One request on a well-formed store: the topics of before are the
    first topics of after, unchanged, and the posts of before are the
    first posts of after, with their identifier, slug and author. *)
Lemma handle_keeps_documents (slugify lower : string -> string) (r : Request)
      (st : Store) :
  well_formed st ->
  (exists more, topics (handle slugify lower r st) = (topics st ++ more)%list)
  /\ (exists more,
         map (fun p => (post_id p, slug p, author_id p))
             (posts (handle slugify lower r st))
         = (map (fun p => (post_id p, slug p, author_id p)) (posts st)
            ++ more)%list).
Proof.
  intros Hwf.
  assert (Hsame : forall st',
             topics st' = topics st -> posts st' = posts st ->
             (exists more, topics st' = (topics st ++ more)%list)
             /\ (exists more,
                    map (fun p => (post_id p, slug p, author_id p))
                        (posts st')
                    = (map (fun p => (post_id p, slug p, author_id p))
                           (posts st) ++ more)%list)).
  { intros st' -> ->. split; exists []; rewrite app_nil_r; reflexivity. }
  destruct r as [rnd topic_data user | rnd placeholder post_data user
                 | slug0 post_data user | slug0 user | us]; cbn [handle].
  - destruct (List.find (fun t => topic_name t =? lower (ti_name topic_data))
                        (topics st)) as [t |] eqn:Hfind.
    + rewrite (create_topics_existing slugify lower rnd _ _ _ _ Hfind).
      apply Hsame; reflexivity.
    + rewrite (create_topics_inserts slugify lower rnd _ _ _ Hfind). cbn zeta.
      destruct (outcome _) as [[new_slug st2] |] eqn:Hr; cbn [snd].
      * destruct (slug_loop_success _ _ _ _ _ _ Hr) as (n & _ & _ & _ & Hp).
        destruct (update_slug_of_last_topic _ _ _ _
                    (mkTopic (next_id st) (lower (ti_name topic_data))
                             None None) Hwf eq_refl Hp)
          as (-> & _).
        cbn [topics posts]. split; [eexists; reflexivity |].
        exists []. rewrite app_nil_r. reflexivity.
      * destruct (delete_last_topic st
                    (mkTopic (next_id st) (lower (ti_name topic_data))
                             None None) Hwf eq_refl)
          as (H1 & H2 & _).
        apply Hsame; assumption.
  - destruct (Posts.create (draft_post placeholder post_data user st) st)
      as [[post0 st1] |] eqn:Hcreate.
    + destruct (create_posts_inserts slugify rnd _ _ _ _ _ _ Hcreate)
        as (Hpost & Hst & Heq).
      rewrite Heq. subst st1.
      assert (Hid : post_id post0 = next_id st)
        by (rewrite Hpost; reflexivity).
      destruct (outcome _) as [[new_slug st2] |] eqn:Hr; cbn [snd].
      * destruct (slug_loop_success _ _ _ _ _ _ Hr) as (n & _ & _ & _ & Hp).
        destruct (update_slug_of_last _ _ _ _ Hwf Hid Hp) as (-> & _).
        cbn [topics posts]. split; [exists []; symmetry; apply app_nil_r |].
        rewrite map_app. eexists. reflexivity.
      * destruct (delete_last_post st post0 Hwf Hid) as (H1 & H2 & _).
        apply Hsame; assumption.
    + unfold create_posts. rewrite Hcreate. apply Hsame; reflexivity.
  - destruct (Posts.get (fun p => slug p =? slug0) st) as [post |] eqn:Hget.
    + destruct (Nat.eq_dec (author_id post) (user_id user)) as [Heq | Hne].
      * destruct (update_posts_by_author slug0 post_data user st post
                    (wf_post_ids_distinct Hwf) (wf_post_slugs_distinct Hwf)
                    Hget Heq)
          as (st' & Hrun & Hposts & _ & _ & _ & Htopics & _).
        rewrite Hrun. cbn [snd].
        split; [exists []; rewrite app_nil_r; exact Htopics |].
        exists []. rewrite app_nil_r, Hposts.
        apply map_ext_in_replace. intros p Hp.
        destruct (Nat.eqb_spec (post_id p) (post_id post)) as [Hid | _];
          [| reflexivity].
        assert (p = post).
        { apply (NoDup_map_eq post_id (posts st)); auto.
          - apply (wf_post_ids_distinct Hwf).
          - unfold Posts.get in Hget. apply find_some in Hget. tauto. }
        subst p.
        destruct (updated_post_keeps post post_data) as (-> & -> & -> & _).
        reflexivity.
      * unfold update_posts, get_object_or_404. rewrite Hget.
        apply Nat.eqb_neq in Hne. rewrite Hne. apply Hsame; reflexivity.
    + unfold update_posts, get_object_or_404. rewrite Hget.
      apply Hsame; reflexivity.
  - rewrite delete_post_same_store. apply Hsame; reflexivity.
  - apply Hsame; reflexivity.
Qed.

(** X15.  No sequence of requests of this router removes or renames
    anything: from a reachable store on, every topic stays in the store
    exactly as it is, and every post stays in the store with its
    identifier, slug and author, in the same order and before the
    documents created later. *)
Theorem documents_are_never_removed :
  forall (slugify lower : string -> string) (rs : list Request) (st : Store),
    reachable slugify lower st ->
    (exists more, topics (run slugify lower rs st) = (topics st ++ more)%list)
    /\ (exists more,
           map (fun p => (post_id p, slug p, author_id p))
               (posts (run slugify lower rs st))
           = (map (fun p => (post_id p, slug p, author_id p)) (posts st)
              ++ more)%list)
    /\ (forall t, In t (topics st) -> In t (topics (run slugify lower rs st)))
    /\ (forall p, In p (posts st) ->
                  exists p', In p' (posts (run slugify lower rs st))
                             /\ post_id p' = post_id p
                             /\ slug p' = slug p
                             /\ author_id p' = author_id p).
Proof.
  intros slugify lower rs st Hreach.
  pose proof (reachable_well_formed slugify lower st Hreach) as Hwf.
  clear Hreach.
  assert (Hmain : (exists more,
                      topics (run slugify lower rs st) = (topics st ++ more)%list)
                  /\ (exists more,
                         map (fun p => (post_id p, slug p, author_id p))
                             (posts (run slugify lower rs st))
                         = (map (fun p => (post_id p, slug p, author_id p))
                                (posts st) ++ more)%list)).
  { revert st Hwf. unfold run.
    induction rs as [| r rs IH]; intros st Hwf; cbn [fold_left].
    - split; exists []; rewrite app_nil_r; reflexivity.
    - destruct (handle_keeps_documents slugify lower r st Hwf)
        as ((mt & Ht) & (mp & Hp)).
      destruct (IH _ (handle_well_formed slugify lower r st Hwf))
        as ((mt' & Ht') & (mp' & Hp')).
      split.
      + exists (mt ++ mt')%list. rewrite Ht', Ht, app_assoc. reflexivity.
      + exists (mp ++ mp')%list. rewrite Hp', Hp, app_assoc. reflexivity. }
  destruct Hmain as ((mt & Ht) & (mp & Hp)).
  split; [exists mt; exact Ht |]. split; [exists mp; exact Hp |]. split.
  - intros t Hin. rewrite Ht. apply in_or_app. left. exact Hin.
  - intros p Hin.
    assert (Hk : In (post_id p, slug p, author_id p)
                    (map (fun p => (post_id p, slug p, author_id p))
                         (posts (run slugify lower rs st)))).
    { rewrite Hp. apply in_or_app. left.
      apply (in_map (fun p => (post_id p, slug p, author_id p))). exact Hin. }
    apply in_map_iff in Hk. destruct Hk as (p' & Heq & Hin').
    injection Heq as H1 H2 H3. exists p'. auto.
Qed.

(** Alice's post "hello" is still there, under "hello", after Bob's
    attempt to delete it and a change of its title. *)
Lemma documents_are_never_removed_witness :
  exists p',
    In p' (posts (run slugify_ascii lower_ascii
                      [DeletePost "hello" bob; DeletePost "hello" alice;
                       UpdatePost "hello" retitle alice]
                      (run slugify_ascii lower_ascii hello_requests (initial 0))))
    /\ post_id p' = 0 /\ slug p' = "hello" /\ author_id p' = 1.
Proof.
  destruct (documents_are_never_removed slugify_ascii lower_ascii
              [DeletePost "hello" bob; DeletePost "hello" alice;
               UpdatePost "hello" retitle alice]
              (run slugify_ascii lower_ascii hello_requests (initial 0))
              (ex_intro _ 0 (ex_intro _ hello_requests eq_refl)))
    as (_ & _ & _ & Hposts).
  apply (Hposts (mkPost 0 1 "hello" "Hello" (Some "long text")
                        (Some "long text") None (Some 5%Z) [])).
  vm_compute. left. reflexivity.
Defined.

(** * The seed data of the tests *)

Lemma string_length_append (s t : string) :
  String.length (s ++ t) = String.length s + String.length t.
Proof.
  induction s as [| c s IH]; cbn; [reflexivity | rewrite IH; reflexivity].
Qed.

Lemma string_append_inj_l (t : string) :
  forall s1 s2, s1 ++ t = s2 ++ t -> s1 = s2.
Proof.
  induction s1 as [| c s1 IH]; intros [| c2 s2] H; cbn in H.
  - reflexivity.
  - apply (f_equal String.length) in H. cbn in H.
    rewrite string_length_append in H. lia.
  - apply (f_equal String.length) in H. cbn in H.
    rewrite string_length_append in H. lia.
  - injection H as -> H. f_equal. apply IH. exact H.
Qed.

Lemma str_inj (n m : nat) : Data.str n = Data.str m -> n = m.
Proof.
  unfold Data.str. intros H.
  apply (f_equal NilEmpty.uint_of_string) in H.
  rewrite !NilEmpty.usu in H. injection H as H.
  apply Unsigned.to_uint_inj. exact H.
Qed.

(** The decimal form of a number starts with a digit. *)
Lemma str_starts_with_digit (n : nat) :
  exists c rest,
    Data.str n = String c rest
    /\ (48 <= nat_of_ascii c <= 57).
Proof.
  unfold Data.str.
  assert (Hnn : Nat.to_uint n <> Decimal.Nil).
  { rewrite <- (Unsigned.of_to n) at 1. rewrite Unsigned.to_of.
    apply DecimalFacts.unorm_nonnil. }
  destruct (Nat.to_uint n); [contradiction | ..];
    cbn; eexists; eexists; (split; [reflexivity | cbn; lia]).
Qed.

Lemma NoDup_map_injective {A B : Type} (f : A -> B) (l : list A) :
  (forall x y, f x = f y -> x = y) -> NoDup l -> NoDup (map f l).
Proof.
  intros Hinj. induction 1 as [| x l Hnotin _ IH]; cbn; constructor.
  - intros Hin. apply in_map_iff in Hin. destruct Hin as (y & Hy & Hin).
    apply Hinj in Hy. subst y. contradiction.
  - exact IH.
Qed.

Section SeedUsers.

Variable fake_name fake_password : list nat -> string.
Variable get_password_hash : string -> string.
Variable new_random_str : list nat -> string.
Variable utcnow : list nat -> datetime.

Let create_users :=
  Data.create_users fake_name fake_password get_password_hash
                    new_random_str utcnow.

(** X16.  [create_users N] writes [max N 2] users, so two of them even
    when [N] is 0 or negative.  The first two are always the accounts of
    the module-level [users], "username_1" and "username_2", with the
    hash of their fixed passwords; the others are "11_username",
    "12_username", ... in order; and no two users written have the same
    user name. *)
Theorem create_users_writes_distinct_users :
  forall N : Z,
    List.length (create_users N) = Z.to_nat (Z.max N 2)
    /\ 2 <= List.length (create_users N)
    /\ firstn 2 (map (fun u => (Data.ud_username u, Data.ud_password u))
                     (create_users N))
       = [("username_1", get_password_hash "password-one");
          ("username_2", get_password_hash "password-two")]
    /\ (forall i, (Z.of_nat i < N - 2)%Z ->
                  nth_error (map Data.ud_username (create_users N)) (2 + i)
                  = Some (Data.str (i + 11) ++ "_username"))
    /\ NoDup (map Data.ud_username (create_users N)).
Proof.
  intros N. unfold create_users, Data.create_users, Data.range.
  set (k := Z.to_nat (Z.max (N - 2) 0)).
  cbn [Data.users List.length seq combine map app].
  rewrite !map_map. cbn [Data.ud_username Data.ud_password].
  split; [cbn [List.length]; rewrite length_map, length_seq; lia |].
  split; [cbn [List.length]; lia |].
  split; [reflexivity |]. split.
  - intros i Hi. cbn [nth_error Nat.add].
    rewrite nth_error_map, nth_error_seq.
    destruct (Nat.ltb_spec i k) as [_ | Hge]; [reflexivity | lia].
  - set (g := fun i : nat => Data.str (i + 11) ++ "_username").
    assert (Hfixed : forall s i, s = "username_1" \/ s = "username_2" ->
                                 g i <> s).
    { intros s i Hs Heq. unfold g in Heq.
      destruct (str_starts_with_digit (i + 11)) as (c & rest & Hstr & Hc).
      rewrite Hstr in Heq. cbn in Heq.
      destruct Hs as [-> | ->]; injection Heq as -> _; cbn in Hc; lia. }
    constructor; [| constructor].
    + intros [Heq | Hin]; [discriminate |].
      apply in_map_iff in Hin. destruct Hin as (i & Hi & _).
      apply (Hfixed "username_1" i); auto.
    + intros Hin. apply in_map_iff in Hin. destruct Hin as (i & Hi & _).
      apply (Hfixed "username_2" i); auto.
    + apply NoDup_map_injective; [| apply seq_NoDup].
      intros x y Hxy. unfold g in Hxy.
      apply string_append_inj_l in Hxy. apply str_inj in Hxy. lia.
Qed.

End SeedUsers.

Lemma create_users_writes_distinct_users_witness :
  map Data.ud_username
      (Data.create_users (fun _ => "Ann") (fun _ => "secret")
                         (fun p => "hash:" ++ p) (fun _ => "r")
                         (fun _ => 0%Z) 0)
  = ["username_1"; "username_2"]
  /\ map Data.ud_username
         (Data.create_users (fun _ => "Ann") (fun _ => "secret")
                            (fun p => "hash:" ++ p) (fun _ => "r")
                            (fun _ => 0%Z) 4)
     = ["username_1"; "username_2"; "11_username"; "12_username"].
Proof.
  destruct (create_users_writes_distinct_users
              (fun _ => "Ann") (fun _ => "secret") (fun p => "hash:" ++ p)
              (fun _ => "r") (fun _ => 0%Z) 4)
    as (_ & _ & _ & Hnth & _).
  split; reflexivity.
Defined.

(** ** Tags *)

(** X17.  [populate_dummy_data] asks for between 10 and 1000 tags,
    whatever the number of posts: 10 up to 109 posts (and for 0 or a
    negative number), a tenth of the posts from 100 to 10009, and 1000
    from 10000 on; [create_tags] writes that many. *)
Theorem populate_tag_total_is_clamped :
  forall (fake_word : list nat -> string) (total_post : Z),
    let n := List.length
               (Data.create_tags fake_word (Data.tag_total total_post)) in
    Z.of_nat n = Data.tag_total total_post
    /\ 10 <= n <= 1000
    /\ ((total_post < 110)%Z -> n = 10)
    /\ ((100 <= total_post < 10010)%Z -> Z.of_nat n = (total_post / 10)%Z)
    /\ ((10000 <= total_post)%Z -> n = 1000).
Proof.
  intros fake_word total_post. cbn zeta.
  unfold Data.create_tags, Data.range, Data.tag_total.
  rewrite length_map, length_seq.
  repeat split; intros; Z.to_euclidean_division_equations; lia.
Qed.

Lemma populate_tag_total_is_clamped_witness :
  List.length (Data.create_tags (fun _ => "tag") (Data.tag_total 10)) = 10
  /\ List.length (Data.create_tags (fun _ => "tag") (Data.tag_total 250))
     = 25.
Proof.
  destruct (populate_tag_total_is_clamped (fun _ => "tag") 10)
    as (_ & _ & Hlow & _).
  split; [apply Hlow; lia | reflexivity].
Defined.

(** ** Loops that may raise *)

Lemma traverse_some {A B : Type} (f : A -> option B) (P : A -> B -> Prop)
      (l : list A) :
  (forall x, In x l -> exists y, f x = Some y /\ P x y) ->
  exists ys,
    Data.traverse f l = Some ys
    /\ Forall2 P l ys.
Proof.
  induction l as [| x l IH]; intros H; cbn.
  - exists []. split; [reflexivity | constructor].
  - destruct (H x (or_introl eq_refl)) as (y & Hy & HP). rewrite Hy.
    destruct IH as (ys & Hys & Hall).
    { intros z Hz. apply H. right. exact Hz. }
    rewrite Hys. exists (y :: ys). split; [reflexivity |].
    constructor; assumption.
Qed.

Lemma traverse_none {A B : Type} (f : A -> option B) (l : list A) (x : A) :
  In x l -> f x = None -> Data.traverse f l = None.
Proof.
  induction l as [| z l IH]; cbn; [contradiction |].
  intros [-> | Hin] Hx.
  - rewrite Hx. reflexivity.
  - destruct (f z); [| reflexivity]. rewrite (IH Hin Hx). reflexivity.
Qed.

Lemma Forall2_length_eq {A B : Type} (P : A -> B -> Prop) (l : list A)
      (ys : list B) :
  Forall2 P l ys -> List.length ys = List.length l.
Proof.
  induction 1; cbn; [reflexivity | f_equal; assumption].
Qed.

Lemma Forall2_right {A B : Type} (P : A -> B -> Prop) (l : list A)
      (ys : list B) (y : B) :
  Forall2 P l ys -> In y ys -> exists x, In x l /\ P x y.
Proof.
  induction 1 as [| x y' l ys HP _ IH]; cbn; [contradiction |].
  intros [<- | Hin].
  - exists x. auto.
  - destruct (IH Hin) as (z & Hz & HPz). exists z. auto.
Qed.

(** ** Posts, descriptions and comments of the seed data *)

Section SeedDocuments.

Variable fake_sentence fake_text : list nat -> string.
Variable utcnow : list nat -> datetime.
Variable shuffle : list nat -> list ObjectId -> list ObjectId.
Variable randint : list nat -> nat -> nat -> nat.

(** What [random] promises: a sample is drawn from a rearrangement of
    the population, and [randint(a, b)] lies between [a] and [b]. *)
Hypothesis shuffle_permutes :
  forall key population, Permutation (shuffle key population) population.
Hypothesis randint_in_range :
  forall key lo hi, lo <= hi -> lo <= randint key lo hi <= hi.

Lemma sample_enough (key : list nat) (population : list ObjectId)
      (k : nat) :
  k <= List.length population ->
  exists l,
    Data.sample shuffle key population k = Some l
    /\ List.length l = k
    /\ incl l population
    /\ (NoDup population -> NoDup l).
Proof.
  intros Hk. unfold Data.sample.
  destruct (Nat.ltb_spec (List.length population) k) as [Hlt | _]; [lia |].
  pose proof (shuffle_permutes key population) as Hperm.
  eexists. split; [reflexivity |]. split; [| split].
  - rewrite length_firstn, (Permutation_length Hperm). lia.
  - intros x Hx. apply (Permutation_in x Hperm).
    rewrite <- (firstn_skipn k (shuffle key population)).
    apply in_or_app. left. exact Hx.
  - intros Hnd.
    assert (Hnd' : NoDup (shuffle key population)).
    { apply (Permutation_NoDup (Permutation_sym Hperm)). exact Hnd. }
    rewrite <- (firstn_skipn k (shuffle key population)) in Hnd'.
    apply NoDup_app_remove_r in Hnd'. exact Hnd'.
Qed.

Lemma sample_too_few (key : list nat) (population : list ObjectId)
      (k : nat) :
  List.length population < k ->
  Data.sample shuffle key population k = None.
Proof.
  intros Hk. unfold Data.sample.
  destruct (Nat.ltb_spec (List.length population) k); [reflexivity | lia].
Qed.

Lemma sample_one_some (key : list nat) (population : list ObjectId) :
  population <> [] ->
  exists x, Data.sample_one shuffle key population = Some x
            /\ In x population.
Proof.
  intros Hne. unfold Data.sample_one.
  destruct (sample_enough key population 1) as (l & Hl & Hlen & Hincl & _).
  { destruct population; [congruence | cbn; lia]. }
  rewrite Hl. destruct l as [| x l]; [discriminate |].
  exists x. split; [reflexivity |]. apply Hincl. left. reflexivity.
Qed.

Lemma sample_one_none (key : list nat) :
  Data.sample_one shuffle key [] = None.
Proof. reflexivity. Qed.

(** What the sampling of [create_posts] gives. *)
Lemma write_posts_spec :
  forall (N : Z) (user_ids tag_ids : list ObjectId),
    (user_ids <> [] -> 3 <= List.length tag_ids ->
     exists posts,
       Data.write_posts fake_sentence fake_text utcnow shuffle randint
                        N user_ids tag_ids = Some posts
       /\ List.length posts = Z.to_nat N
       /\ (forall p, In p posts ->
             In (Data.pd_author_id p) user_ids
             /\ 1 <= List.length (Data.pd_tag_ids p) <= 3
             /\ incl (Data.pd_tag_ids p) tag_ids
             /\ (NoDup tag_ids -> NoDup (Data.pd_tag_ids p))
             /\ Data.pd_publish_at p <> None
             /\ Data.pd_short_description p = None
             /\ Data.pd_cover_image p = None))
    /\ ((0 < N)%Z -> user_ids = [] \/ tag_ids = [] ->
        Data.write_posts fake_sentence fake_text utcnow shuffle randint
                         N user_ids tag_ids = None).
Proof.
  intros N user_ids tag_ids. split.
  - intros Husers Htags. unfold Data.write_posts.
    destruct (traverse_some
                (fun i =>
                   match Data.sample_one shuffle [5; i] user_ids with
                   | None => None
                   | Some author =>
                       match Data.sample shuffle [6; i] tag_ids
                                         (randint [6; i] 1 3) with
                       | None => None
                       | Some tags =>
                           Some (Data.new_post fake_sentence fake_text
                                               utcnow i author tags)
                       end
                   end)
                (fun (_ : nat) p =>
                   In (Data.pd_author_id p) user_ids
                   /\ 1 <= List.length (Data.pd_tag_ids p) <= 3
                   /\ incl (Data.pd_tag_ids p) tag_ids
                   /\ (NoDup tag_ids -> NoDup (Data.pd_tag_ids p))
                   /\ Data.pd_publish_at p <> None
                   /\ Data.pd_short_description p = None
                   /\ Data.pd_cover_image p = None)
                (Data.range N)) as (posts & Hposts & Hall).
    + intros i _.
      destruct (sample_one_some [5; i] user_ids Husers) as (a & Ha & Hin).
      pose proof (randint_in_range [6; i] 1 3 ltac:(lia)) as Hr.
      destruct (sample_enough [6; i] tag_ids (randint [6; i] 1 3))
        as (ts & Hts & Hlen & Hincl & Hnd); [lia |].
      rewrite Ha, Hts. eexists. split; [reflexivity |].
      cbn. rewrite Hlen.
      split; [exact Hin |]. split; [exact Hr |]. split; [exact Hincl |].
      split; [exact Hnd |]. split; [discriminate | auto].
    + exists posts. split; [exact Hposts |]. split.
      * rewrite (Forall2_length_eq _ _ _ Hall). unfold Data.range.
        apply length_seq.
      * intros p Hp. destruct (Forall2_right _ _ _ _ Hall Hp) as (i & _ & H).
        exact H.
  - intros HN Hempty. unfold Data.write_posts.
    apply (traverse_none _ (Data.range N) 0).
    + unfold Data.range. apply in_seq. lia.
    + destruct Hempty as [-> | ->]; [reflexivity |].
      destruct (Data.sample_one shuffle [5; 0] user_ids); [| reflexivity].
      rewrite sample_too_few; [reflexivity |].
      pose proof (randint_in_range [6; 0] 1 3 ltac:(lia)). cbn. lia.
Qed.

(** X18.  With at least one user and at least three tags, the sampling
    of [create_posts] never raises: it builds [N] posts (none for a
    negative [N]), each with an author among the users and with one to
    three tags among the tags, no tag twice when the tag identifiers are
    distinct, a publication time, and neither short description nor
    cover image.  Without any user it raises as soon as one post is
    asked for, and so it does with at least one post and no tag. *)
Theorem seed_posts_sample_within_bounds :
  forall (N : Z) (user_ids tag_ids : list ObjectId),
    (user_ids <> [] -> 3 <= List.length tag_ids ->
     exists posts,
       Data.write_posts fake_sentence fake_text utcnow shuffle randint
                        N user_ids tag_ids = Some posts
       /\ List.length posts = Z.to_nat N
       /\ (forall p, In p posts ->
             In (Data.pd_author_id p) user_ids
             /\ 1 <= List.length (Data.pd_tag_ids p) <= 3
             /\ incl (Data.pd_tag_ids p) tag_ids
             /\ (NoDup tag_ids -> NoDup (Data.pd_tag_ids p))
             /\ Data.pd_publish_at p <> None
             /\ Data.pd_short_description p = None
             /\ Data.pd_cover_image p = None))
    /\ ((0 < N)%Z -> user_ids = [] \/ tag_ids = [] ->
        Data.write_posts fake_sentence fake_text utcnow shuffle randint
                         N user_ids tag_ids = None).
Proof.
  exact write_posts_spec.
Qed.

End SeedDocuments.

Lemma seed_posts_sample_within_bounds_witness :
  exists posts,
    Data.write_posts plain_text plain_text plain_now in_order lowest
                     2 [1; 2] [7; 8; 9] = Some posts
    /\ List.length posts = 2.
Proof.
  destruct (seed_posts_sample_within_bounds
              plain_text plain_text plain_now in_order lowest
              (fun _ l => Permutation_refl l)
              (fun _ lo hi H => conj (le_n lo) H)
              2 [1; 2] [7; 8; 9])
    as (Hok & _).
  destruct Hok as (posts & H & Hlen & _); [discriminate | cbn; lia |].
  exists posts. split; [exact H | exact Hlen].
Defined.

Lemma traverse_nth_error (text : nat -> string) (post_ids : list ObjectId) :
  forall n a,
    a + n <= List.length post_ids ->
    exists ds,
      Data.traverse
        (fun i => match nth_error post_ids i with
                  | None => None
                  | Some post_id =>
                      Some (Data.mkDescriptionDoc post_id (text i))
                  end)
        (seq a n) = Some ds
      /\ map Data.dd_post_id ds = firstn n (skipn a post_ids).
Proof.
  induction n as [| n IH]; intros a Ha; cbn [seq Data.traverse].
  - exists []. split; reflexivity.
  - destruct (nth_error post_ids a) as [x |] eqn:Hx.
    + destruct (IH (S a)) as (ds & Hds & Hmap); [lia |].
      rewrite Hds. eexists. split; [reflexivity |].
      cbn [map Data.dd_post_id]. rewrite Hmap.
      rewrite <- hd_error_skipn in Hx.
      destruct (skipn a post_ids) as [| y rest] eqn:Hskip; [discriminate |].
      injection Hx as ->.
      assert (Hrest : skipn (S a) post_ids = rest).
      { replace (S a) with (1 + a) by lia.
        rewrite <- skipn_skipn, Hskip. reflexivity. }
      rewrite Hrest. reflexivity.
    + apply nth_error_None in Hx. lia.
Qed.

(** X19.  The descriptions of [create_posts] go to the first [N] posts
    of the collection, one each and in order, and indexing the
    identifiers never raises once [N] posts were written.  They are the
    descriptions of the [N] new posts only when the collection was empty
    before; when it already had [N] posts or more, every description is
    attached to an old post and none to a new one.  With fewer than [N]
    posts in the collection the indexing raises. *)
Theorem seed_descriptions_go_to_the_first_posts :
  forall (fake_text : list nat -> string) (N : Z)
         (old_ids new_ids : list ObjectId),
    List.length new_ids = Z.to_nat N ->
    (exists ds,
        Data.write_descriptions fake_text N (old_ids ++ new_ids) = Some ds
        /\ List.length ds = Z.to_nat N
        /\ map Data.dd_post_id ds = firstn (Z.to_nat N) (old_ids ++ new_ids)
        /\ (old_ids = [] -> map Data.dd_post_id ds = new_ids)
        /\ (Z.to_nat N <= List.length old_ids ->
            map Data.dd_post_id ds = firstn (Z.to_nat N) old_ids))
    /\ (forall post_ids,
           List.length post_ids < Z.to_nat N ->
           Data.write_descriptions fake_text N post_ids = None).
Proof.
  intros fake_text N old_ids new_ids Hnew. split.
  - unfold Data.write_descriptions, Data.range.
    destruct (traverse_nth_error (fun i => fake_text [7; i])
                (old_ids ++ new_ids) (Z.to_nat N) 0)
      as (ds & Hds & Hmap).
    { rewrite length_app. lia. }
    exists ds. cbn [skipn] in Hmap.
    split; [exact Hds |]. split; [| split; [exact Hmap | split]].
    + rewrite <- (length_map Data.dd_post_id), Hmap, length_firstn,
        length_app.
      lia.
    + intros ->. rewrite Hmap. cbn [app]. rewrite <- Hnew.
      apply firstn_all.
    + intros Hold. rewrite Hmap. rewrite firstn_app.
      replace (Z.to_nat N - List.length old_ids) with 0 by lia.
      cbn [firstn]. apply app_nil_r.
  - intros post_ids Hshort. unfold Data.write_descriptions, Data.range.
    apply (traverse_none _ _ (List.length post_ids)).
    + apply in_seq. lia.
    + rewrite (proj2 (nth_error_None post_ids (List.length post_ids)));
        [reflexivity | lia].
Qed.

(** Two new posts after one old post: the old post and the first new one
    get the descriptions. *)
Lemma seed_descriptions_go_to_the_first_posts_witness :
  exists ds,
    Data.write_descriptions plain_text 2 ([5] ++ [6; 7]) = Some ds
    /\ map Data.dd_post_id ds = [5; 6].
Proof.
  destruct (seed_descriptions_go_to_the_first_posts plain_text 2 [5] [6; 7]
              eq_refl)
    as ((ds & Hds & _ & Hmap & _) & _).
  exists ds. split; [exact Hds | exact Hmap].
Defined.

Lemma third_is_smaller (n : nat) : Data.total_post_comment n = n / 3.
Proof.
  unfold Data.total_post_comment.
  pose proof (Nat.div_mod_eq n 3). pose proof (Nat.mod_upper_bound n 3).
  lia.
Qed.

Lemma concat_length_bounds {A : Type} (lo hi : nat) (ls : list (list A)) :
  Forall (fun l => lo <= List.length l <= hi) ls ->
  lo * List.length ls <= List.length (List.concat ls) <= hi * List.length ls.
Proof.
  induction 1 as [| l ls Hl _ IH]; cbn; [lia |].
  rewrite length_app. lia.
Qed.

Section SeedComments.

Variable fake_text : list nat -> string.
Variable shuffle : list nat -> list ObjectId -> list ObjectId.
Variable randint : list nat -> nat -> nat -> nat.

Hypothesis shuffle_permutes :
  forall key population, Permutation (shuffle key population) population.
Hypothesis randint_in_range :
  forall key lo hi, lo <= hi -> lo <= randint key lo hi <= hi.

(** What holds of every comment that is written. *)
Let well_made (user_ids : list ObjectId) (post_id : ObjectId)
    (c : Data.CommentDoc) : Prop :=
  Data.cd_post_id c = post_id
  /\ In (Data.cd_user_id c) user_ids
  /\ 1 <= List.length (Data.cd_replies c) <= 20
  /\ (forall r, In r (Data.cd_replies c) -> In (Data.rd_user_id r) user_ids).

Lemma new_comment_some (j c : nat) (user_ids : list ObjectId)
      (post_id : ObjectId) :
  user_ids <> [] ->
  exists doc,
    Data.new_comment fake_text shuffle randint j c user_ids post_id
    = Some doc
    /\ well_made user_ids post_id doc.
Proof.
  intros Husers. unfold Data.new_comment.
  destruct (traverse_some
              (fun r =>
                 match Data.sample_one shuffle [8; j; c; r] user_ids with
                 | None => None
                 | Some u =>
                     Some (Data.mkReplyDoc u (fake_text [8; j; c; r]))
                 end)
              (fun (_ : nat) r => In (Data.rd_user_id r) user_ids)
              (seq 0 (randint [8; j; c] 1 20)))
    as (replies & Hreplies & Hall).
  { intros r _.
    destruct (sample_one_some shuffle shuffle_permutes [8; j; c; r]
                user_ids Husers) as (u & Hu & Hin).
    rewrite Hu. eexists. split; [reflexivity | exact Hin]. }
  rewrite Hreplies.
  destruct (sample_one_some shuffle shuffle_permutes [9; j; c] user_ids
              Husers) as (u & Hu & Hin).
  rewrite Hu. eexists. split; [reflexivity |].
  unfold well_made. cbn.
  split; [reflexivity |]. split; [exact Hin |]. split.
  - rewrite (Forall2_length_eq _ _ _ Hall), length_seq.
    apply randint_in_range. lia.
  - intros r Hr. destruct (Forall2_right _ _ _ _ Hall Hr) as (i & _ & H).
    exact H.
Qed.

Lemma Forall2_combine_snd {A B C : Type} (Q : B -> C -> Prop) :
  forall (js : list A) (xs : list B) (ls : list C),
    List.length js = List.length xs ->
    Forall2 (fun (x : A * B) l => Q (snd x) l) (combine js xs) ls ->
    Forall2 Q xs ls.
Proof.
  induction js as [| j js IH]; intros [| x xs] ls Hlen H; cbn in *;
    try discriminate.
  - inversion H. constructor.
  - inversion H as [| y l l1 l2 Hq Hrest]; subst.
    constructor; [exact Hq |]. apply (IH xs); [lia | exact Hrest].
Qed.

(** X20.  [create_comments] comments on a third of the posts, rounded
    down (the [min] with the number of posts never matters): the posts
    it draws are that many posts of the collection, no post twice when
    the identifiers are distinct, and the list of comments it builds is
    empty when there are fewer than three posts.  With at least one user
    the sampling never raises, and the list it builds is made of one
    group for each post drawn, in order: the group of a post has between
    1 and 100 comments, every one of them on that post, by a user of the
    collection, with 1 to 20 replies by users of the collection.  Without
    any user the sampling raises as soon as there are three posts. *)
Theorem seed_comments_are_well_made :
  forall user_ids post_ids : list ObjectId,
    Data.total_post_comment (List.length post_ids)
    = List.length post_ids / 3
    /\ (List.length post_ids < 3 ->
        Data.write_comments fake_text shuffle randint user_ids post_ids
        = Some [])
    /\ (user_ids <> [] ->
        exists chosen groups,
          Data.sample shuffle [10] post_ids (List.length post_ids / 3)
          = Some chosen
          /\ List.length chosen = List.length post_ids / 3
          /\ incl chosen post_ids
          /\ (NoDup post_ids -> NoDup chosen)
          /\ Data.write_comments fake_text shuffle randint user_ids post_ids
             = Some (List.concat groups)
          /\ Forall2
               (fun post_id group =>
                  1 <= List.length group <= 100
                  /\ forall c, In c group ->
                       Data.cd_post_id c = post_id
                       /\ In (Data.cd_user_id c) user_ids
                       /\ 1 <= List.length (Data.cd_replies c) <= 20
                       /\ (forall r, In r (Data.cd_replies c) ->
                                     In (Data.rd_user_id r) user_ids))
               chosen groups)
    /\ (user_ids = [] -> 3 <= List.length post_ids ->
        Data.write_comments fake_text shuffle randint user_ids post_ids
        = None).
Proof.
  intros user_ids post_ids.
  pose proof (third_is_smaller (List.length post_ids)) as Hk.
  assert (Hle : List.length post_ids / 3 <= List.length post_ids).
  { pose proof (Nat.div_mod_eq (List.length post_ids) 3). lia. }
  destruct (sample_enough shuffle shuffle_permutes [10] post_ids
              (List.length post_ids / 3) Hle)
    as (chosen & Hchosen & Hlen & Hincl & Hnd).
  split; [exact Hk |]. split; [| split].
  - intros Hfew. unfold Data.write_comments.
    rewrite Hk, Hchosen.
    assert (H0 : List.length post_ids / 3 = 0)
      by (apply Nat.div_small; exact Hfew).
    rewrite H0 in Hlen. destruct chosen; [reflexivity | discriminate].
  - intros Husers. unfold Data.write_comments. rewrite Hk, Hchosen.
    destruct (traverse_some
                (fun '(j, post_id) =>
                   Data.traverse
                     (fun c => Data.new_comment fake_text shuffle randint
                                 j c user_ids post_id)
                     (seq 0 (randint [11; j] 1 100)))
                (fun (x : nat * ObjectId) l =>
                   1 <= List.length l <= 100
                   /\ forall c, In c l -> well_made user_ids (snd x) c)
                (combine (seq 0 (List.length chosen)) chosen))
      as (ls & Hls & Hall).
    { intros [j post_id] _.
      destruct (traverse_some
                  (fun c => Data.new_comment fake_text shuffle randint
                              j c user_ids post_id)
                  (fun (_ : nat) doc => well_made user_ids post_id doc)
                  (seq 0 (randint [11; j] 1 100)))
        as (l & Hl & Hall).
      { intros c _. apply new_comment_some. exact Husers. }
      exists l. split; [exact Hl |]. split.
      - rewrite (Forall2_length_eq _ _ _ Hall), length_seq.
        apply randint_in_range. lia.
      - intros doc Hdoc.
        destruct (Forall2_right _ _ _ _ Hall Hdoc) as (c & _ & H).
        exact H. }
    rewrite Hls. cbn [option_map]. exists chosen, ls.
    split; [reflexivity |]. split; [exact Hlen |]. split; [exact Hincl |].
    split; [exact Hnd |]. split; [reflexivity |].
    apply (Forall2_combine_snd
             (fun post_id group =>
                1 <= List.length group <= 100
                /\ forall c, In c group -> well_made user_ids post_id c)
             (seq 0 (List.length chosen)) chosen ls);
      [apply length_seq | exact Hall].
  - intros -> Hmany. unfold Data.write_comments. rewrite Hk, Hchosen.
    assert (Hpos : 1 <= List.length post_ids / 3).
    { apply Nat.div_le_lower_bound; lia. }
    destruct chosen as [| post_id chosen]; [cbn [List.length] in Hlen; lia |].
    cbn [List.length seq combine].
    erewrite traverse_none; [reflexivity | left; reflexivity |].
    pose proof (randint_in_range [11; 0] 1 100 ltac:(lia)) as Hr.
    apply (traverse_none _ _ 0); [apply in_seq; lia |].
    unfold Data.new_comment.
    pose proof (randint_in_range [8; 0; 0] 1 20 ltac:(lia)) as Hr'.
    match goal with
    | |- context [Data.traverse ?f ?l] =>
        rewrite (traverse_none f l 0);
          [reflexivity | apply in_seq; lia | reflexivity]
    end.
Qed.

End SeedComments.

(** With six posts, two are drawn and each gets one comment. *)
Lemma seed_comments_are_well_made_witness :
  exists comments,
    Data.write_comments plain_text in_order lowest [1; 2] [5; 6; 7; 8; 9; 10]
    = Some comments
    /\ map Data.cd_post_id comments = [5; 6].
Proof.
  destruct (seed_comments_are_well_made plain_text in_order lowest
              (fun _ l => Permutation_refl l)
              (fun _ lo hi H => conj (le_n lo) H)
              [1; 2] [5; 6; 7; 8; 9; 10])
    as (_ & _ & Hok & _).
  destruct Hok as (chosen & groups & _ & _ & _ & _ & Hrun & _);
    [discriminate |].
  exists (List.concat groups). split; [exact Hrun |].
  assert (H : option_map (map Data.cd_post_id) (Some (List.concat groups))
              = Some [5; 6])
    by (rewrite <- Hrun; vm_compute; reflexivity).
  injection H as H. exact H.
Defined.

(** ** Enough users and tags for the posts *)

Section SeedPipeline.

Variable fake_name fake_password fake_word fake_sentence fake_text
  : list nat -> string.
Variable get_password_hash : string -> string.
Variable new_random_str : list nat -> string.
Variable utcnow : list nat -> datetime.
Variable shuffle : list nat -> list ObjectId -> list ObjectId.
Variable randint : list nat -> nat -> nat -> nat.

Hypothesis shuffle_permutes :
  forall key population, Permutation (shuffle key population) population.
Hypothesis randint_in_range :
  forall key lo hi, lo <= hi -> lo <= randint key lo hi <= hi.

Lemma create_users_at_least_two (N : Z) :
  2 <= List.length
         (Data.create_users fake_name fake_password get_password_hash
                            new_random_str utcnow N).
Proof.
  unfold Data.create_users. rewrite length_app. cbn. lia.
Qed.

Lemma create_tags_at_least_ten (total_post : Z) :
  10 <= List.length (Data.create_tags fake_word (Data.tag_total total_post)).
Proof.
  unfold Data.create_tags, Data.range, Data.tag_total.
  rewrite length_map, length_seq. lia.
Qed.

(** X21.  [create_users] and [create_tags] leave enough to draw from:
    whatever [total_user] and [total_post] are, 0 and negative numbers
    included, when the collections hold at least as many users as
    [create_users] builds and as many tags as [create_tags] builds for
    [populate_dummy_data], the sampling loop of [create_posts] does not
    raise and builds a list of [total_post] posts (an empty one for a
    number that is not positive), each with an author among the users
    and tags among the tags.  What [bulk_write] does with the lists is
    outside this statement. *)
Theorem seed_users_and_tags_suffice :
  forall (total_user total_post : Z) (user_ids tag_ids : list ObjectId),
    List.length
      (Data.create_users fake_name fake_password get_password_hash
                         new_random_str utcnow total_user)
    <= List.length user_ids ->
    List.length (Data.create_tags fake_word (Data.tag_total total_post))
    <= List.length tag_ids ->
    exists posts,
      Data.write_posts fake_sentence fake_text utcnow shuffle randint
                       total_post user_ids tag_ids = Some posts
      /\ List.length posts = Z.to_nat total_post
      /\ (forall p, In p posts ->
            In (Data.pd_author_id p) user_ids
            /\ incl (Data.pd_tag_ids p) tag_ids).
Proof.
  intros total_user total_post user_ids tag_ids Husers Htags.
  pose proof (create_users_at_least_two total_user) as H2.
  pose proof (create_tags_at_least_ten total_post) as H10.
  destruct (proj1 (write_posts_spec fake_sentence fake_text utcnow shuffle
                     randint shuffle_permutes randint_in_range
                     total_post user_ids tag_ids))
    as (posts & Hposts & Hlen & Hall).
  - destruct user_ids; [cbn in Husers; lia | discriminate].
  - lia.
  - exists posts. split; [exact Hposts |]. split; [exact Hlen |].
    intros p Hp. destruct (Hall p Hp) as (Ha & _ & Hi & _). auto.
Qed.

End SeedPipeline.

Lemma seed_users_and_tags_suffice_witness :
  exists posts,
    Data.write_posts plain_text plain_text plain_now in_order lowest
                     1 [1; 2] (seq 20 10) = Some posts
    /\ List.length posts = 1.
Proof.
  destruct (seed_users_and_tags_suffice
              plain_text plain_text plain_text plain_text plain_text
              (fun p => p) plain_text plain_now in_order lowest
              (fun _ l => Permutation_refl l)
              (fun _ lo hi H => conj (le_n lo) H)
              0 1 [1; 2] (seq 20 10))
    as (posts & Hposts & Hlen & _).
  - vm_compute. lia.
  - vm_compute. lia.
  - exists posts. split; [exact Hposts | exact Hlen].
Defined.
